(** * UNO-Bot: session lifecycle, deck and hand management

    A shallow embedding of [bot/uno/game.py] and [bot/extensions/uno.py].
    Python objects that are mutated in place become explicit state; a
    function that can raise, mutate and send messages lives in the monad
    [M S A] below (state [S], exceptions that keep the state reached so
    far, and a log of the messages handed to the chat transport). *)

From stdpp Require Import gmap strings list fin_maps sorting.

Open Scope Z_scope.

(** ** Effects *)

(** A Python exception, identified by the name of its class. *)
Definition exn := string.

Definition IndexError : exn := "IndexError"%string.
Definition KeyError : exn := "KeyError"%string.
Definition AttributeError : exn := "AttributeError"%string.

Inductive outcome (A : Type) : Type :=
| Ret (a : A)
| Raise (e : exn).
Arguments Ret {A} a.
Arguments Raise {A} e.

(** Participants are compared by equality only ([discord.Member.__eq__]
    compares ids); a member is represented by its id. *)
Definition Member := Z.

(** What the session asks the transport to show. *)
Inductive Content : Type :=
| ChooseRuleSet (host : Member)
| Opening
| Roster (shown : list Member) (start_disabled : bool)
| Plain (text : string).

Inductive Output : Type :=
| CtxSend (c : Content)
| MessageEdit (c : Content)
| Respond (to : Member) (text : string) (ephemeral : bool)
| Defer (to : Member).

Definition M (S A : Type) : Type := S -> outcome A * S * list Output.

Definition ret {S A} (a : A) : M S A := fun s => (Ret a, s, []).

Definition raise {S A} (e : exn) : M S A := fun s => (Raise e, s, []).

Definition bind {S A B} (m : M S A) (f : A -> M S B) : M S B :=
  fun s =>
    match m s with
    | (Ret a, s', out) =>
        match f a s' with
        | (r, s'', out') => (r, s'', out ++ out')
        end
    | (Raise e, s', out) => (Raise e, s', out)
    end.

Definition get {S} : M S S := fun s => (Ret s, s, []).

Definition modify {S} (f : S -> S) : M S unit := fun s => (Ret tt, f s, []).

Definition tell {S} (o : Output) : M S unit := fun s => (Ret tt, s, [o]).

(** Run a computation on a part of the state: [proj] reads the part and
    [upd] writes it back, also when the computation raised. *)
Definition zoom {S T A} (proj : S -> T) (upd : T -> S -> S) (m : M T A) : M S A :=
  fun s =>
    match m (proj s) with
    | (r, t', out) => (r, upd t' s, out)
    end.

(** [try: m except e: pass] *)
Definition try_except_pass {S} (e : exn) (m : M S unit) : M S unit :=
  fun s =>
    match m s with
    | (Raise e', s', out) =>
        if String.eqb e' e then (Ret tt, s', out) else (Raise e', s', out)
    | r => r
    end.

Declare Scope py_scope.
Delimit Scope py_scope with py.
Notation "x <- m ;; k" := (bind m (fun x => k))
  (at level 90, m at level 89, right associativity) : py_scope.
Notation "m ;;; k" := (bind m (fun _ => k))
  (at level 90, right associativity) : py_scope.
Open Scope py_scope.

(** [[m for _ in range(n)]] *)
Fixpoint comprehension {S A} (n : nat) (m : M S A) : M S (list A) :=
  match n with
  | O => ret []
  | S n' => a <- m ;; rest <- comprehension n' m ;; ret (a :: rest)
  end.

(** [for x in xs: body x] *)
Fixpoint for_each {S A} (xs : list A) (body : A -> M S unit) : M S unit :=
  match xs with
  | [] => ret tt
  | x :: xs' => body x ;;; for_each xs' body
  end.

(** ** The [random] module

    The generator is a supply of raw draws; [randbelow n] consumes one and
    reduces it below [n]. *)
Definition Rng := list nat.

Definition randbelow (n : nat) (r : Rng) : nat * Rng :=
  match r with
  | [] => (O, [])
  | x :: r' => ((x mod n)%nat, r')
  end.

(** [x[i], x[j] = x[j], x[i]] *)
Definition swap {A} (x : list A) (i j : nat) : list A :=
  match x !! i, x !! j with
  | Some a, Some b => <[j:=a]> (<[i:=b]> x)
  | _, _ => x
  end.

(** [random.shuffle]: [for i in reversed(range(1, len(x))): j =
    randbelow(i + 1); swap]. [shuffle_from i] runs the iterations
    [i, i-1, ..., 1]. *)
Fixpoint shuffle_from {A} (i : nat) (x : list A) (r : Rng) : list A * Rng :=
  match i with
  | O => (x, r)
  | S i' =>
      let '(j, r') := randbelow (S i) r in
      shuffle_from i' (swap x i j) r'
  end.

Definition shuffle {A} (x : list A) (r : Rng) : list A * Rng :=
  shuffle_from (length x - 1) x r.

(** ** Cards *)

(** Modelled from the spec: [bot/uno/cards.py] ([Card], its enums and
    [create_deck]) is not part of the sources. A card is an immutable value
    with a colour, a type and an optional number, compared structurally;
    the two enum members are represented by their integer [.value], which
    is all the code reads from them. *)
Record Card : Type := mkCard {
  color : Z;
  type : Z;
  value : option Z
}.

Global Instance Card_eq_dec : EqDecision Card.
Proof. solve_decision. Defined.

(** ** [RuleSet] *)
Record RuleSet : Type := mkRuleSet {
  stacking : bool;
  progressive : bool;
  seven_o : bool;
  jump_in : bool
}.

(** [RuleSet()] with the dataclass defaults. *)
Definition RuleSet_default : RuleSet := mkRuleSet true true false false.

Module Deck.

Record t : Type := mk { _internal_deck : list Card }.

(** [self._internal_deck.pop(0)]: [list.pop] raises [IndexError] on an
    empty list. *)
Definition pop : M t Card :=
  fun d =>
    match _internal_deck d with
    | [] => (Raise IndexError, d, [])
    | c :: rest => (Ret c, mk rest, [])
    end.

(** [create_deck] comes from the absent [cards.py]; its result is taken
    as a parameter. *)
Definition reset (create_deck : list Card) (d : t) : t := mk create_deck.

Definition __init__ (create_deck : list Card) : t := reset create_deck (mk []).

Definition __len__ (d : t) : nat := length (_internal_deck d).

Definition shuffle (d : t) (r : Rng) : t * Rng :=
  let '(x, r') := shuffle (_internal_deck d) r in (mk x, r').

End Deck.

Module Hand.

Record t : Type := mk { player : Member; _cards : list Card }.

Definition __init__ (p : Member) : t := mk p [].

Definition __len__ (h : t) : nat := length (_cards h).

(** The state of a hand operation: the owning game's deck and the hand. *)
Definition st : Type := Deck.t * t.

Definition append (card : Card) (s : st) : st :=
  (s.1, mk (player s.2) (_cards s.2 ++ [card])).

Definition _draw_one : M st Card :=
  card <- zoom fst (fun d s => (d, s.2)) Deck.pop ;;
  modify (append card) ;;;
  ret card.

(** [Union[list[Card], Card]] *)
Inductive drawn : Type :=
| One (c : Card)
| Many (cs : list Card).

Definition draw (amount : Z) : M st drawn :=
  if amount =? 1 then
    c <- _draw_one ;; ret (One c)
  else
    cs <- comprehension (Z.to_nat amount) _draw_one ;; ret (Many cs).

(** [card.value or 0] *)
Definition value_or_0 (v : option Z) : Z :=
  match v with
  | Some n => if n =? 0 then 0 else n
  | None => 0
  end.

Definition _card_sort_key (card : Card) : Z * Z * Z :=
  (color card, type card, value_or_0 (value card)).

(** Python's ordering of tuples: lexicographic. *)
Definition key_leb (a b : Z * Z * Z) : bool :=
  let '(a1, a2, a3) := a in
  let '(b1, b2, b3) := b in
  (a1 <? b1) || ((a1 =? b1) && ((a2 <? b2) || ((a2 =? b2) && (a3 <=? b3)))).

(** [sorted(xs, key=key)]: the stable sort, as an insertion sort that
    keeps an element before the later ones of equal key. *)
Fixpoint insert_by {A} (key : A -> Z * Z * Z) (x : A) (l : list A) : list A :=
  match l with
  | [] => [x]
  | y :: l' =>
      if key_leb (key x) (key y) then x :: y :: l'
      else y :: insert_by key x l'
  end.

Definition sorted {A} (l : list A) (key : A -> Z * Z * Z) : list A :=
  foldr (insert_by key) [] l.

(** The [cards] property. *)
Definition cards : M t (list Card) :=
  self <- get ;; ret (sorted (_cards self) _card_sort_key).

End Hand.

(** ** Interactions delivered by the transport *)

(** [interaction.user] and [interaction.data['values']]. *)
Record Interaction : Type := mkInteraction {
  user : Member;
  values : list string
}.

(** [commands.Context]: the author of the command and [ctx.channel.id]. *)
Record Context : Type := mkContext {
  author : Member;
  channel_id : Z
}.

(** [xs[i]] for a Python int [i]: negative indices count from the end. *)
Definition py_index {A} (xs : list A) (i : Z) : option A :=
  if 0 <=? i then xs !! Z.to_nat i
  else if 0 <=? Z.of_nat (length xs) + i then xs !! Z.to_nat (Z.of_nat (length xs) + i)
  else None.

Module UNO.

Record t : Type := mk {
  ctx : Context;
  host : Member;
  rule_set : option RuleSet;
  players : gset Member;
  deck : Deck.t;
  hands : list Hand.t;
  current : option Card;
  turn : Z;
  _message : option Content
}.

Definition set_rule_set (x : option RuleSet) (g : t) : t :=
  mk (ctx g) (host g) x (players g) (deck g) (hands g) (current g) (turn g) (_message g).
Definition set_players (x : gset Member) (g : t) : t :=
  mk (ctx g) (host g) (rule_set g) x (deck g) (hands g) (current g) (turn g) (_message g).
Definition set_deck (x : Deck.t) (g : t) : t :=
  mk (ctx g) (host g) (rule_set g) (players g) x (hands g) (current g) (turn g) (_message g).
Definition set_hands (x : list Hand.t) (g : t) : t :=
  mk (ctx g) (host g) (rule_set g) (players g) (deck g) x (current g) (turn g) (_message g).
Definition set_current (x : option Card) (g : t) : t :=
  mk (ctx g) (host g) (rule_set g) (players g) (deck g) (hands g) x (turn g) (_message g).
Definition set_message (x : option Content) (g : t) : t :=
  mk (ctx g) (host g) (rule_set g) (players g) (deck g) (hands g) (current g) (turn g) x.

(** [UNO(ctx, host=..., rule_set=..., players=...)]; [host or ctx.author],
    [set(players)], a fresh deck, no hands, no current card, turn 0. *)
Definition __init__ (create_deck : list Card) (c : Context)
    (host_arg : option Member) (rule_set_arg : option RuleSet)
    (players_arg : list Member) : t :=
  mk c (default (author c) host_arg) rule_set_arg (list_to_set players_arg)
     (Deck.__init__ create_deck) [] None 0 None.

(** The names an instance of the class answers to: what [__init__]
    assigns and what the class body defines. *)
Definition attributes : list string :=
  [ "ctx"; "host"; "rule_set"; "players"; "deck"; "hands"; "current";
    "turn"; "_message"; "__init__"; "__repr__"; "current_hand";
    "current_player"; "get_hand"; "_send"; "_resend"; "choose_rule_set";
    "queue_players"; "_deal_cards"; "_run_initial_prompts"; "_setup";
    "start" ]%string.

(** Looking up [game.<name>]: a name the class does not have raises
    [AttributeError]. *)
Definition lookup_attribute (name : string) : M t unit :=
  if bool_decide (name ∈ attributes) then ret tt else raise AttributeError.

(** [self.hands[self.turn]] *)
Definition current_hand : M t Hand.t :=
  self <- get ;;
  match py_index (hands self) (turn self) with
  | Some h => ret h
  | None => raise IndexError
  end.

Definition current_player : M t Member :=
  h <- current_hand ;; ret (Hand.player h).

(** [discord.utils.get(self.hands, player=user)]: the first hand whose
    [player] equals [user], [None] when there is none. *)
Definition get_hand (user : Member) : M t (option Hand.t) :=
  self <- get ;;
  ret (find (fun h => bool_decide (Hand.player h = user)) (hands self)).

(** Send the session's single message, or edit it once it exists. *)
Definition _send (content : Content) : M t unit :=
  self <- get ;;
  match _message self with
  | None => modify (set_message (Some content)) ;;; tell (CtxSend content)
  | Some _ => modify (set_message (Some content)) ;;; tell (MessageEdit content)
  end.

Definition choose_rule_set : M t unit :=
  modify (set_rule_set (Some RuleSet_default)) ;;;
  self <- get ;;
  _send (ChooseRuleSet (host self)).

(** [hand.draw(7)] for the hand stored at index [i] of [self.hands]: the
    hand works on the game's deck and on its own cards, in place. *)
Definition with_hand {A} (i : nat) (m : M Hand.st A) : M t A :=
  fun g =>
    match hands g !! i with
    | None => (Raise IndexError, g, [])
    | Some h =>
        match m (deck g, h) with
        | (r, (d', h'), out) => (r, set_hands (<[i:=h']> (hands g)) (set_deck d' g), out)
        end
    end.

(** The body of the loop of [_deal_cards], for the hand at index [i]. *)
Definition deal_body (i : nat) : M t unit :=
  with_hand i (Hand.draw 7) ;;; ret tt.

Definition _deal_cards : M t unit :=
  self <- get ;;
  for_each (seq 0 (length (hands self))) deal_body.

(** The functions below also use the [random] module: their state is
    the game together with the generator. *)
Definition on_self {A} (m : M t A) : M (t * Rng) A :=
  zoom fst (fun g s => (g, s.2)) m.

Definition shuffle_hands (s : t * Rng) : t * Rng :=
  let '(x, r') := shuffle (hands s.1) s.2 in (set_hands x s.1, r').

Definition shuffle_deck (s : t * Rng) : t * Rng :=
  let '(d, r') := Deck.shuffle (deck s.1) s.2 in (set_deck d s.1, r').

(** [choose_rule_set] only sends the prompt: it does not wait for the
    host. The hands are built from [self.players] as it is then. *)
Definition _run_initial_prompts : M (t * Rng) unit :=
  on_self choose_rule_set ;;;
  on_self (modify (fun self =>
    set_hands (Hand.__init__ <$> elements (players self)) self)) ;;;
  modify shuffle_hands.

Definition _setup : M (t * Rng) unit :=
  modify shuffle_deck ;;;
  card <- on_self (zoom deck set_deck Deck.pop) ;;
  on_self (modify (set_current (Some card))) ;;;
  on_self _deal_cards.

Definition start : M (t * Rng) unit :=
  _run_initial_prompts ;;;
  _setup.

End UNO.

(** ** Views *)

(** [discord.ui.View] hands an interaction to a component's callback only
    when the view's [interaction_check] allows it. *)
Definition scheduled_task {S} (interaction_check : Interaction -> M S bool)
    (callback : Interaction -> M S unit) (interaction : Interaction) : M S unit :=
  allow <- interaction_check interaction ;;
  if allow : bool then callback interaction else ret tt.

Module HostOnlyView.

Definition interaction_check {S} (_view_owner : Member)
    (interaction : Interaction) : M S bool :=
  if bool_decide (user interaction ≠ _view_owner) then
    tell (Respond (user interaction) "You are not the host of this game." true) ;;;
    ret false
  else ret true.

End HostOnlyView.

Module RuleSetPrompt.

(** The keys of [CHOICES], in the order of the dict. *)
Definition CHOICES : list string :=
  [ "stacking"; "progressive"; "seven_o"; "jump_in" ]%string.

(** [setattr(rule_set, name, b)] for the four fields of the dataclass
    (no other name is ever passed). *)
Definition setattr (rs : RuleSet) (name : string) (b : bool) : RuleSet :=
  if String.eqb name "stacking" then
    mkRuleSet b (progressive rs) (seven_o rs) (jump_in rs)
  else if String.eqb name "progressive" then
    mkRuleSet (stacking rs) b (seven_o rs) (jump_in rs)
  else if String.eqb name "seven_o" then
    mkRuleSet (stacking rs) (progressive rs) b (jump_in rs)
  else if String.eqb name "jump_in" then
    mkRuleSet (stacking rs) (progressive rs) (seven_o rs) b
  else rs.

(** [setattr(self.game.rule_set, name, b)]; the rule set is [None] until
    [choose_rule_set] ran. *)
Definition setattr_rule_set (name : string) (b : bool) : M UNO.t unit :=
  game <- get ;;
  match UNO.rule_set game with
  | None => raise AttributeError
  | Some rs => modify (UNO.set_rule_set (Some (setattr rs name b)))
  end.

Definition callback (interaction : Interaction) : M UNO.t unit :=
  for_each CHOICES (fun value =>
    setattr_rule_set value (bool_decide (value ∈ values interaction))) ;;;
  tell (Defer (user interaction)).

(** [RuleSetChoice(name, description)] *)
Record RuleSetChoice : Type := mkChoice {
  name : string;
  description : string
}.

(** The dict [CHOICES] with its values, in insertion order. *)
Definition CHOICES_items : list (string * RuleSetChoice) :=
  [ ("stacking",
     mkChoice "Stacking"
       "Allows the play of multiple cards that have the same value/type at once.");
    ("progressive",
     mkChoice "Progressive"
       "Draw cards can be progressively stacked until one must draw.");
    ("seven_o",
     mkChoice "Seven-O"
       "If you play a 7, you can swap hands. When a 0 is played, everyone passes their hands to their left.");
    ("jump_in",
     mkChoice "Jump In"
       "Immediately play a card that is a duplicate of the current card, even if it isn't your turn.")
  ]%string.

(** [getattr(rule_set, name, False)]: [False] for a name the object does
    not have, in particular when the rule set is still [None]. *)
Definition getattr (rule_set : option RuleSet) (name : string) : bool :=
  match rule_set with
  | None => false
  | Some rs =>
      if String.eqb name "stacking" then stacking rs
      else if String.eqb name "progressive" then progressive rs
      else if String.eqb name "seven_o" then seven_o rs
      else if String.eqb name "jump_in" then jump_in rs
      else false
  end.

(** [discord.SelectOption(label, value, description, default)] *)
Record SelectOption : Type := mkOption {
  label : string;
  option_value : string;
  option_description : string;
  default_selected : bool
}.

(** The select itself, as [__init__] configures it. *)
Record t : Type := mk {
  min_values : nat;
  max_values : nat;
  options : list SelectOption;
  placeholder : string
}.

Definition __init__ (game : UNO.t) : t :=
  mk 0 (length CHOICES_items)
     ((fun kv : string * RuleSetChoice =>
         mkOption (name kv.2) kv.1 (description kv.2)
                  (getattr (UNO.rule_set game) kv.1)) <$> CHOICES_items)
     "Select game rules...".

(** What the client submits when the host confirms the select as it was
    shown: the values of the options marked as default. *)
Definition preselected (select : t) : list string :=
  option_value <$> filter (fun o => default_selected o = true) (options select).

End RuleSetPrompt.

Module PlayerQueueingView.

(** The view keeps the game, whose [players] set it shares
    ([self.players] is the very set [game.players]), the state of the
    "Start!" button and whether [stop()] was called. *)
Record t : Type := mk {
  game : UNO.t;
  immediate_start_button_disabled : bool;
  stopped : bool
}.

Definition players (v : t) : gset Member := UNO.players (game v).

Definition set_players (x : gset Member) (v : t) : t :=
  mk (UNO.set_players x (game v)) (immediate_start_button_disabled v) (stopped v).
Definition set_disabled (b : bool) (v : t) : t :=
  mk (game v) b (stopped v).
Definition stop (v : t) : t :=
  mk (game v) (immediate_start_button_disabled v) true.

(** [game.players.add(self.game.host)]; the button starts disabled. *)
Definition __init__ (g : UNO.t) : t :=
  mk (UNO.set_players ({[ UNO.host g ]} ∪ UNO.players g) g) true false.

Definition on_game {A} (m : M UNO.t A) : M t A :=
  zoom game (fun g v => mk g (immediate_start_button_disabled v) (stopped v)) m.

(** The callback of [immediate_start_button]. *)
Definition immediate_start (interaction : Interaction) : M t unit :=
  self <- get ;;
  if bool_decide (user interaction ≠ UNO.host (game self)) then
    tell (Respond (user interaction) "Only the host can start this game." true)
  else if bool_decide (size (players self) < 2)%nat then
    tell (Respond (user interaction)
            "There must be at least 2 players in order to start this game." true)
  else modify stop.

(** [disabled = len(self.players) > 1], then the roster is rendered. The
    order in which a Python set is iterated is not specified: the list
    [elements] gives stands for it, and the properties of the roster are
    stated up to the order of the names. *)
Definition _update : M t unit :=
  modify (fun self =>
    set_disabled (bool_decide (1 < size (players self))%nat) self) ;;;
  self <- get ;;
  on_game (UNO._send
    (Roster (elements (players self)) (immediate_start_button_disabled self))).

Definition join (interaction : Interaction) : M t unit :=
  self <- get ;;
  if bool_decide (user interaction ∈ players self) then
    tell (Respond (user interaction) "You are already in this game." true)
  else
    modify (fun self => set_players ({[ user interaction ]} ∪ players self) self) ;;;
    _update.

Definition leave (interaction : Interaction) : M t unit :=
  self <- get ;;
  if bool_decide (user interaction ∉ players self) then
    tell (Respond (user interaction) "You are not in this game." true)
  else if bool_decide (user interaction = UNO.host (game self)) then
    tell (Respond (user interaction)
            "You cannot leave this game as you are the host." true)
  else
    modify (fun self => set_players (players self ∖ {[ user interaction ]}) self) ;;;
    _update.

(** The three buttons of the view. *)
Inductive button : Type := Start | Join | Leave.

Definition press (b : button) : Interaction -> M t unit :=
  match b with
  | Start => immediate_start
  | Join => join
  | Leave => leave
  end.

(** A sequence of button presses, handled one at a time in the order of
    delivery. *)
Definition presses (evs : list (button * Interaction)) : M t unit :=
  for_each evs (fun ev => press ev.1 ev.2).

End PlayerQueueingView.

(** [UNO.queue_players] up to [await view.wait()]: the view is created
    around the game, the opening message is sent and the roster rendered. *)
Definition UNO_queue_players (g : UNO.t) : outcome unit * PlayerQueueingView.t * list Output :=
  (PlayerQueueingView.on_game (UNO._send Opening) ;;;
   PlayerQueueingView._update) (PlayerQueueingView.__init__ g).

(** ... and after it: [self.players = view.players]. *)
Definition UNO_queue_players_resume (view : PlayerQueueingView.t) : UNO.t :=
  UNO.set_players (PlayerQueueingView.players view) (PlayerQueueingView.game view).

Module RuleSetPromptingView.

(** The select of the view, behind the host check of [HostOnlyView]. *)
Definition select : Interaction -> M UNO.t unit :=
  fun interaction =>
    game <- get ;;
    scheduled_task (HostOnlyView.interaction_check (UNO.host game))
      RuleSetPrompt.callback interaction.

(** Rule-change events, handled one at a time in the order of delivery. *)
Definition selects (evs : list Interaction) : M UNO.t unit :=
  for_each evs select.

End RuleSetPromptingView.

(** ** The [play] command *)

Module Extension.

(** [bot.uno_instances] and the generator of the [random] module. *)
Record Bot : Type := mkBot {
  uno_instances : gmap Z UNO.t;
  random : Rng
}.

(** [game] and [uno_instances[channel]] are one object: the methods of
    [game] act on the registered entry. *)
Definition on_game {A} (channel : Z) (game : UNO.t) (m : M (UNO.t * Rng) A) : M Bot A :=
  zoom (fun bot => (default game (uno_instances bot !! channel), random bot))
       (fun s bot => mkBot (alter (fun _ => s.1) channel (uno_instances bot)) s.2)
       m.

(** [del self.bot.uno_instances[channel]] *)
Definition del_instance (channel : Z) : M Bot unit :=
  bot <- get ;;
  match uno_instances bot !! channel with
  | None => raise KeyError
  | Some _ => modify (fun bot => mkBot (delete channel (uno_instances bot)) (random bot))
  end.

Definition play_uno (create_deck : list Card) (ctx : Context) : M Bot unit :=
  bot <- get ;;
  if bool_decide (channel_id ctx ∈ dom (uno_instances bot)) then
    tell (CtxSend (Plain "An instance of UNO is already running in this channel."))
  else
    let game := UNO.__init__ create_deck ctx None None [] in
    modify (fun bot => mkBot (<[channel_id ctx := game]> (uno_instances bot)) (random bot)) ;;;
    on_game (channel_id ctx) game UNO.start ;;;
    on_game (channel_id ctx) game (UNO.on_self (UNO.lookup_attribute "wait")) ;;;
    try_except_pass KeyError (del_instance (channel_id ctx)).

(** [self.bot.uno_instances.clear()] *)
Definition cog_unload : M Bot unit :=
  modify (fun bot => mkBot ∅ (random bot)).

End Extension.

(** ** The ordering the specification gives for a hand *)

(** The key of a card in the words of the specification: colour, type, and
    the number, 0 when the card has none. *)
Definition spec_sort_key (card : Card) : Z * Z * Z :=
  (color card, type card, default 0 (value card)).

(** Lexicographic "less than or equal" on triples. *)
Definition lex_le (a b : Z * Z * Z) : Prop :=
  a.1.1 < b.1.1 \/
  (a.1.1 = b.1.1 /\ (a.1.2 < b.1.2 \/ (a.1.2 = b.1.2 /\ a.2 <= b.2))).

Definition card_le (a b : Card) : Prop :=
  lex_le (spec_sort_key a) (spec_sort_key b).

(** ** Rejected presses on the queueing view

    The rejections the specification lists for the queueing stage: a
    start-now by somebody else than the host or with fewer than two players,
    a join by a member, a leave by a non-member or by the host. *)
Inductive rejected (i : Interaction) (v : PlayerQueueingView.t) :
    PlayerQueueingView.button -> Prop :=
| start_by_non_host :
    user i <> UNO.host (PlayerQueueingView.game v) ->
    rejected i v PlayerQueueingView.Start
| start_below_minimum :
    (size (PlayerQueueingView.players v) < 2)%nat ->
    rejected i v PlayerQueueingView.Start
| duplicate_join :
    user i ∈ PlayerQueueingView.players v ->
    rejected i v PlayerQueueingView.Join
| leave_by_non_member :
    user i ∉ PlayerQueueingView.players v ->
    rejected i v PlayerQueueingView.Leave
| leave_by_host :
    user i = UNO.host (PlayerQueueingView.game v) ->
    rejected i v PlayerQueueingView.Leave.

(** ** What dealing leaves in the hands

    [dealt hs cs]: every hand of [hs] in turn takes the next seven cards of
    [cs]. The loop of [_deal_cards] is proved below to compute this. *)
Fixpoint dealt (hs : list Hand.t) (cs : list Card) : list Hand.t :=
  match hs with
  | [] => []
  | h :: tl =>
      Hand.mk (Hand.player h) (Hand._cards h ++ take 7 cs) :: dealt tl (drop 7 cs)
  end.

(** The order induced by a sort key. *)
Definition le_by {A} (key : A -> Z * Z * Z) (x y : A) : Prop :=
  lex_le (key x) (key y).

(** ** Selections, as rule sets *)

(** The rule set a submitted selection stands for: a flag is on when its
    name is among the submitted values. *)
Definition selection (vs : list string) : RuleSet :=
  mkRuleSet (bool_decide ("stacking"%string ∈ vs))
            (bool_decide ("progressive"%string ∈ vs))
            (bool_decide ("seven_o"%string ∈ vs))
            (bool_decide ("jump_in"%string ∈ vs)).

(** The rule set after a series of rule-change events on a session hosted
    by [h]: the selection of the last event that came from the host, the
    initial rule set when there was none. *)
Fixpoint last_host_selection (h : Member) (rs : RuleSet) (evs : list Interaction) : RuleSet :=
  match evs with
  | [] => rs
  | i :: evs' =>
      last_host_selection h
        (if bool_decide (user i = h) then selection (values i) else rs) evs'
  end.

(** The cards a session holds outside the current card: those in the hands,
    hand by hand, then the deck. *)
Definition cards_in_play (g : UNO.t) : list Card :=
  concat (Hand._cards <$> UNO.hands g) ++ Deck._internal_deck (UNO.deck g).

(** ** What the queueing stage leaves alone

    [same_but_roster v v']: of the session inside the queueing view, only
    the players and the message may differ between [v] and [v']. *)
Definition same_but_roster (v v' : PlayerQueueingView.t) : Prop :=
  UNO.ctx (PlayerQueueingView.game v') = UNO.ctx (PlayerQueueingView.game v) /\
  UNO.host (PlayerQueueingView.game v') = UNO.host (PlayerQueueingView.game v) /\
  UNO.rule_set (PlayerQueueingView.game v') = UNO.rule_set (PlayerQueueingView.game v) /\
  UNO.deck (PlayerQueueingView.game v') = UNO.deck (PlayerQueueingView.game v) /\
  UNO.hands (PlayerQueueingView.game v') = UNO.hands (PlayerQueueingView.game v) /\
  UNO.current (PlayerQueueingView.game v') = UNO.current (PlayerQueueingView.game v) /\
  UNO.turn (PlayerQueueingView.game v') = UNO.turn (PlayerQueueingView.game v).

(** ** Cards as objects

    A deck and a hand are Python lists of references to card objects: two
    cards may be equal as values and still be two objects, and a pop moves
    the object, not a copy. Where a property speaks of the cards themselves
    the code is read at this level: a [CardObject] is a card together with
    the identity of its object ([id(card)]), and [Objects.pop],
    [Objects._draw_one] and [Objects.draw] are [Deck.pop], [Hand._draw_one]
    and [Hand.draw] on lists of objects. Forgetting the identities gives
    back the functions on the cards (proved below). *)
Record CardObject : Type := mkObject {
  identity : nat;
  card : Card
}.

Module Objects.

Record deck : Type := mk_deck { _internal_deck : list CardObject }.

Record hand : Type := mk_hand { player : Member; _cards : list CardObject }.

(** [self._internal_deck.pop(0)] *)
Definition pop : M deck CardObject :=
  fun d =>
    match _internal_deck d with
    | [] => (Raise IndexError, d, [])
    | c :: rest => (Ret c, mk_deck rest, [])
    end.

Definition st : Type := deck * hand.

Definition append (c : CardObject) (s : st) : st :=
  (s.1, mk_hand (player s.2) (_cards s.2 ++ [c])).

Definition _draw_one : M st CardObject :=
  c <- zoom fst (fun d s => (d, s.2)) pop ;;
  modify (append c) ;;;
  ret c.

Inductive drawn : Type :=
| One (c : CardObject)
| Many (cs : list CardObject).

Definition draw (amount : Z) : M st drawn :=
  if amount =? 1 then
    c <- _draw_one ;; ret (One c)
  else
    cs <- comprehension (Z.to_nat amount) _draw_one ;; ret (Many cs).





End Objects.

(** * Properties *)

(** ** Deck and hand *)

Section deck_and_hand.

Implicit Types (d : Deck.t) (h : Hand.t) (c : Card) (cs : list Card).

Lemma pop_cons c cs :
  Deck.pop (Deck.mk (c :: cs)) = (Ret c, Deck.mk cs, []).
Proof. reflexivity. Qed.

Lemma pop_nil : Deck.pop (Deck.mk []) = (Raise IndexError, Deck.mk [], []).
Proof. reflexivity. Qed.

Lemma _draw_one_cons c cs p hs :
  Hand._draw_one (Deck.mk (c :: cs), Hand.mk p hs)
  = (Ret c, (Deck.mk cs, Hand.mk p (hs ++ [c])), []).
Proof. reflexivity. Qed.

Lemma _draw_one_nil p hs :
  Hand._draw_one (Deck.mk [], Hand.mk p hs)
  = (Raise IndexError, (Deck.mk [], Hand.mk p hs), []).
Proof. reflexivity. Qed.

(** [n] draws in a row take the first [n] cards of the deck, in order. *)
Lemma comprehension_draw (n : nat) : forall cs p hs,
  (n <= length cs)%nat ->
  comprehension n Hand._draw_one (Deck.mk cs, Hand.mk p hs)
  = (Ret (take n cs), (Deck.mk (drop n cs), Hand.mk p (hs ++ take n cs)), []).
Proof.
  induction n as [|n IH]; intros cs p hs Hn.
  - cbn. by rewrite app_nil_r.
  - destruct cs as [|c cs]; [cbn in Hn; lia|].
    cbn [comprehension]. unfold bind at 1. rewrite _draw_one_cons.
    unfold bind at 1. rewrite IH by (cbn in Hn; lia).
    cbn. by rewrite <- app_assoc.
Qed.

(** They cannot all succeed on a shorter deck. *)
Lemma comprehension_draw_Ret (n : nat) : forall cs p hs l s out,
  comprehension n Hand._draw_one (Deck.mk cs, Hand.mk p hs) = (Ret l, s, out) ->
  (n <= length cs)%nat.
Proof.
  induction n as [|n IH]; intros cs p hs l s out H; [lia|].
  destruct cs as [|c cs].
  - cbn [comprehension] in H. unfold bind at 1 in H.
    rewrite _draw_one_nil in H. discriminate.
  - cbn [comprehension] in H. unfold bind at 1 in H.
    rewrite _draw_one_cons in H. unfold bind at 1 in H.
    destruct (comprehension n Hand._draw_one _) as [[[l'|e] s'] out'] eqn:E;
      [|discriminate].
    apply IH in E. cbn. lia.
Qed.

Lemma draw_7 cs p hs :
  (7 <= length cs)%nat ->
  Hand.draw 7 (Deck.mk cs, Hand.mk p hs)
  = (Ret (Hand.Many (take 7 cs)),
     (Deck.mk (drop 7 cs), Hand.mk p (hs ++ take 7 cs)), []).
Proof.
  intros H. unfold Hand.draw. change (7 =? 1) with false. cbv iota.
  unfold bind. change (Z.to_nat 7) with 7%nat.
  by rewrite comprehension_draw.
Qed.

Lemma draw_7_Ret cs p hs r s out :
  Hand.draw 7 (Deck.mk cs, Hand.mk p hs) = (Ret r, s, out) ->
  (7 <= length cs)%nat.
Proof.
  unfold Hand.draw. change (7 =? 1) with false. cbv iota.
  unfold bind. change (Z.to_nat 7) with 7%nat.
  destruct (comprehension 7 Hand._draw_one _) as [[[l'|e] s'] out'] eqn:E;
    [|discriminate].
  intros _. by apply comprehension_draw_Ret in E.
Qed.


End deck_and_hand.

(** C4, as amended: [Deck.pop] on a non-empty deck returns the card at the
    front and leaves the rest of the sequence, so the deck shrinks by exactly
    that card; on an empty deck it raises Python's [IndexError] and the deck
    stays empty. *)
Theorem Deck_pop_contract (d : Deck.t) :
  match Deck._internal_deck d with
  | c :: rest =>
      Deck.pop d = (Ret c, Deck.mk rest, []) /\
      S (Deck.__len__ (Deck.mk rest)) = Deck.__len__ d
  | [] => Deck.pop d = (Raise IndexError, d, [])
  end.
Proof.
  destruct d as [[|c rest]]; cbn; auto.
Qed.

(** C4 as stated fails: popping the empty deck does not raise an
    [EmptyDeckError]. *)
Lemma Deck_pop_empty_not_EmptyDeckError :
  ~ (forall d : Deck.t, Deck._internal_deck d = [] ->
       exists s out, Deck.pop d = (Raise "EmptyDeckError"%string, s, out)).
Proof.
  intros H. destruct (H (Deck.mk []) eq_refl) as (s & out & E).
  rewrite pop_nil in E. discriminate.
Qed.

(** ** Drawing, object by object *)

Section objects.

Implicit Types (cs hs : list CardObject) (p : Member).



End objects.



(** ** The sorted view of a hand *)

Section sorted_view.

Lemma value_or_0_default (v : option Z) : Hand.value_or_0 v = default 0 v.
Proof.
  destruct v as [n|]; cbn; [|done].
  destruct (Z.eqb_spec n 0); congruence.
Qed.

Lemma _card_sort_key_spec (c : Card) : Hand._card_sort_key c = spec_sort_key c.
Proof. unfold Hand._card_sort_key, spec_sort_key. by rewrite value_or_0_default. Qed.

Lemma key_leb_lex_le (a b : Z * Z * Z) : Hand.key_leb a b = true <-> lex_le a b.
Proof.
  destruct a as [[a1 a2] a3], b as [[b1 b2] b3]. unfold Hand.key_leb, lex_le. cbn.
  rewrite !orb_true_iff, !andb_true_iff, !orb_true_iff, !andb_true_iff.
  rewrite !Z.ltb_lt, !Z.eqb_eq, Z.leb_le. tauto.
Qed.

Lemma lex_le_trans (a b c : Z * Z * Z) : lex_le a b -> lex_le b c -> lex_le a c.
Proof. unfold lex_le. lia. Qed.

Lemma lex_le_total (a b : Z * Z * Z) : lex_le a b \/ lex_le b a.
Proof. unfold lex_le. lia. Qed.

Context {A : Type} (key : A -> Z * Z * Z).

Lemma insert_by_Permutation (x : A) (l : list A) :
  Hand.insert_by key x l ≡ₚ x :: l.
Proof.
  induction l as [|y l IH]; cbn; [done|].
  destruct (Hand.key_leb (key x) (key y)); [done|].
  rewrite IH. apply Permutation_swap.
Qed.

Lemma insert_by_sorted (x : A) (l : list A) :
  StronglySorted (le_by key) l -> StronglySorted (le_by key) (Hand.insert_by key x l).
Proof.
  induction l as [|y l IH]; intros Hs; cbn.
  - repeat constructor.
  - apply StronglySorted_inv in Hs as [Hl Hy].
    destruct (Hand.key_leb (key x) (key y)) eqn:E.
    + apply key_leb_lex_le in E. fold (le_by key x y) in E.
      constructor; [by constructor|].
      constructor; [exact E|].
      eapply Forall_impl; [exact Hy|].
      intros z Hz. by apply lex_le_trans with (key y).
    + constructor; [by apply IH|].
      rewrite insert_by_Permutation. constructor; [|exact Hy].
      destruct (lex_le_total (key x) (key y)) as [H|H]; [|exact H].
      apply key_leb_lex_le in H. congruence.
Qed.

Lemma sorted_Permutation (l : list A) : Hand.sorted l key ≡ₚ l.
Proof.
  induction l as [|x l IH]; cbn; [done|].
  fold (Hand.sorted l key). by rewrite insert_by_Permutation, IH.
Qed.

Lemma sorted_StronglySorted (l : list A) : StronglySorted (le_by key) (Hand.sorted l key).
Proof.
  induction l as [|x l IH]; cbn; [constructor|].
  by apply insert_by_sorted.
Qed.

End sorted_view.

(** C9: whatever the storage order of a hand, reading [Hand.cards] returns
    its cards sorted non-decreasingly by (colour, type, number or 0), every
    earlier card being below every later one; the result holds the same
    cards, and the read leaves the hand as it was. *)
Theorem Hand_cards_sorted_view (h : Hand.t) :
  exists l,
    Hand.cards h = (Ret l, h, []) /\
    StronglySorted card_le l /\
    Sorted card_le l /\
    l ≡ₚ Hand._cards h.
Proof.
  exists (Hand.sorted (Hand._cards h) Hand._card_sort_key).
  assert (Hs : StronglySorted card_le (Hand.sorted (Hand._cards h) Hand._card_sort_key)).
  { pose proof (sorted_StronglySorted Hand._card_sort_key (Hand._cards h)) as H.
    induction H as [|x l Hl IH Hx]; constructor; [exact IH|].
    eapply Forall_impl; [exact Hx|]. intros y Hy.
    unfold card_le. by rewrite <- !_card_sort_key_spec. }
  split; [reflexivity|]. split; [exact Hs|].
  split; [by apply StronglySorted_Sorted | apply sorted_Permutation].
Qed.

(** ** Rule-set negotiation *)

(** C2: a rule-change event with selection [S] replaces all four flags:
    after [RuleSetPrompt.callback] the rule set of the session has each flag
    true exactly when its name is in [S], whatever the flags were before,
    and nothing else of the session has changed; in particular the selection
    [{stacking, jump_in}] followed by the empty selection leaves the session
    with all four flags false. *)
Theorem rule_change_replaces_flags (i : Interaction) (g : UNO.t) (rs : RuleSet) :
  UNO.rule_set g = Some rs ->
  (exists g' rs',
     RuleSetPrompt.callback i g = (Ret tt, g', [Defer (user i)]) /\
     UNO.rule_set g' = Some rs' /\
     (stacking rs' = true <-> "stacking"%string ∈ values i) /\
     (progressive rs' = true <-> "progressive"%string ∈ values i) /\
     (seven_o rs' = true <-> "seven_o"%string ∈ values i) /\
     (jump_in rs' = true <-> "jump_in"%string ∈ values i) /\
     UNO.ctx g' = UNO.ctx g /\ UNO.host g' = UNO.host g /\
     UNO.players g' = UNO.players g /\ UNO.deck g' = UNO.deck g /\
     UNO.hands g' = UNO.hands g /\ UNO.current g' = UNO.current g /\
     UNO.turn g' = UNO.turn g /\ UNO._message g' = UNO._message g) /\
  (forall actor,
     exists g'',
       (RuleSetPrompt.callback (mkInteraction actor ["stacking"; "jump_in"]%string) ;;;
        RuleSetPrompt.callback (mkInteraction actor [])) g
       = (Ret tt, g'', [Defer actor; Defer actor]) /\
       UNO.rule_set g'' = Some (mkRuleSet false false false false)).
Proof.
  intros Hrs. destruct g as [c hst r ps d hs cur tn msg]. cbn in Hrs. subst r.
  split.
  - do 2 eexists. split; [reflexivity|]. split; [reflexivity|].
    cbn. rewrite !bool_decide_eq_true.
    repeat (split; [tauto || reflexivity|]). reflexivity.
  - intros actor. eexists. split; reflexivity.
Qed.

(** The replacement at a concrete session: the defaults (stacking and
    progressive on), then the selection [{seven_o}]. *)
Lemma rule_change_replaces_flags_witness :
  let g := UNO.set_rule_set (Some RuleSet_default)
             (UNO.__init__ [] (mkContext 1 10) None None []) in
  exists g' rs',
    RuleSetPrompt.callback (mkInteraction 1 ["seven_o"%string]) g
    = (Ret tt, g', [Defer 1]) /\
    UNO.rule_set g' = Some rs' /\
    seven_o rs' = true /\ stacking rs' <> true /\ progressive rs' <> true.
Proof.
  intros g.
  destruct (rule_change_replaces_flags (mkInteraction 1 ["seven_o"%string]) g
              RuleSet_default eq_refl)
    as [(g' & rs' & Hcb & Hrs & Hst & Hpr & Hse & _) _].
  exists g', rs'. split; [exact Hcb|]. split; [exact Hrs|]. split; [|split].
  - apply Hse. apply list_elem_of_here.
  - intros H. apply Hst in H. apply list_elem_of_singleton in H. discriminate H.
  - intros H. apply Hpr in H. apply list_elem_of_singleton in H. discriminate H.
Defined.

(** ** The queueing view *)

Section queueing.

Import PlayerQueueingView.

Implicit Types (v : PlayerQueueingView.t) (i : Interaction) (g : UNO.t).

Lemma _send_run (c : Content) g :
  exists o, UNO._send c g = (Ret tt, UNO.set_message (Some c) g, [o]).
Proof.
  unfold UNO._send, bind, get. destruct (UNO._message g); cbn; eauto.
Qed.

(** A re-render touches the button and the message, nothing else. *)
Lemma _update_run v :
  exists o,
    _update v
    = (Ret tt,
       mk (UNO.set_message
             (Some (Roster (elements (players v)) (bool_decide (1 < size (players v))%nat)))
             (game v))
          (bool_decide (1 < size (players v))%nat) (stopped v),
       [o]).
Proof.
  unfold _update, bind, modify, get, on_game, zoom, UNO._send. cbn.
  destruct (UNO._message (game v)); cbn; eauto.
Qed.

Lemma join_accepted i v :
  user i ∉ players v ->
  join i v = _update (set_players ({[ user i ]} ∪ players v) v).
Proof.
  intros H. unfold join, bind at 1, get. rewrite bool_decide_eq_false_2 by done.
  unfold bind, modify. by destruct (_update _) as [[r s] out].
Qed.

Lemma leave_accepted i v :
  user i ∈ players v -> user i <> UNO.host (game v) ->
  leave i v = _update (set_players (players v ∖ {[ user i ]}) v).
Proof.
  intros H1 H2. unfold leave, bind at 1, get.
  rewrite bool_decide_eq_false_2 by (intros H; by apply H).
  rewrite bool_decide_eq_false_2 by done.
  unfold bind, modify. by destruct (_update _) as [[r s] out].
Qed.

(** A rejected press answers the presser alone and changes nothing. *)
Lemma rejected_press i v b :
  rejected i v b ->
  exists notice, press b i v = (Ret tt, v, [Respond (user i) notice true]).
Proof.
  intros [H|H|H|H|H]; cbn [press].
  - unfold immediate_start, bind, get. rewrite bool_decide_eq_true_2 by done.
    cbn. eauto.
  - unfold immediate_start, bind, get.
    case_bool_decide; [cbn; eauto|].
    rewrite bool_decide_eq_true_2 by done. cbn. eauto.
  - unfold join, bind, get. rewrite bool_decide_eq_true_2 by done. cbn. eauto.
  - unfold leave, bind, get. rewrite bool_decide_eq_true_2 by done. cbn. eauto.
  - unfold leave, bind, get.
    case_bool_decide; [cbn; eauto|].
    rewrite bool_decide_eq_true_2 by done. cbn. eauto.
Qed.

(** No press raises, changes the host, or takes the host out. *)
Lemma press_keeps_host b i v :
  exists v' out,
    press b i v = (Ret tt, v', out) /\
    UNO.host (game v') = UNO.host (game v) /\
    (UNO.host (game v) ∈ players v -> UNO.host (game v') ∈ players v').
Proof.
  destruct b; cbn [press].
  - unfold immediate_start, bind, get.
    repeat case_bool_decide; cbn; eauto 6.
  - destruct (decide (user i ∈ players v)) as [Hin|Hin].
    + destruct (rejected_press i v Join (duplicate_join _ _ Hin)) as [n Hn].
      cbn [press] in Hn. rewrite Hn. eauto 6.
    + rewrite join_accepted by done.
      destruct (_update_run (set_players ({[user i]} ∪ players v) v)) as [o ->].
      do 2 eexists. split; [reflexivity|]. cbn. split; [done|].
      unfold players. cbn. set_solver.
  - destruct (decide (user i ∈ players v)) as [Hin|Hin];
      [destruct (decide (user i = UNO.host (game v))) as [Hh|Hh]|].
    + destruct (rejected_press i v Leave (leave_by_host _ _ Hh)) as [n Hn].
      cbn [press] in Hn. rewrite Hn. eauto 6.
    + rewrite leave_accepted by done.
      destruct (_update_run (set_players (players v ∖ {[user i]}) v)) as [o ->].
      do 2 eexists. split; [reflexivity|]. cbn. split; [done|].
      unfold players. cbn. set_solver.
    + destruct (rejected_press i v Leave (leave_by_non_member _ _ Hin)) as [n Hn].
      cbn [press] in Hn. rewrite Hn. eauto 6.
Qed.

Lemma presses_keep_host (evs : list (button * Interaction)) : forall v,
  exists v' out,
    presses evs v = (Ret tt, v', out) /\
    UNO.host (game v') = UNO.host (game v) /\
    (UNO.host (game v) ∈ players v -> UNO.host (game v') ∈ players v').
Proof.
  induction evs as [|[b i] evs IH]; intros v.
  - exists v, []. by cbn.
  - unfold presses. cbn [for_each]. unfold bind. cbn [fst snd].
    destruct (press_keeps_host b i v) as (v1 & out1 & -> & Hh1 & Hin1).
    destruct (IH v1) as (v2 & out2 & E & Hh2 & Hin2).
    unfold presses in E. rewrite E.
    do 2 eexists. split; [reflexivity|]. split; [congruence|].
    intros H. apply Hin2. by apply Hin1.
Qed.

End queueing.

(** C3: a rejected interaction changes nothing. A rule change by somebody
    else than the host stops at the host check of the view; on the queueing
    view a start-now by a non-host or below two players, a duplicate join, a
    leave by a non-member and a leave by the host all return with the view,
    and so the session inside it (players, rule set, hands, deck, turn and
    current card), exactly as it was; the only effect is the ephemeral
    notice to the actor. *)
Theorem rejection_leaves_state (i : Interaction) :
  (forall g : UNO.t,
     user i <> UNO.host g ->
     RuleSetPromptingView.select i g
     = (Ret tt, g, [Respond (user i) "You are not the host of this game." true])) /\
  (forall (v : PlayerQueueingView.t) (b : PlayerQueueingView.button),
     rejected i v b ->
     exists notice,
       PlayerQueueingView.press b i v = (Ret tt, v, [Respond (user i) notice true])).
Proof.
  split.
  - intros g H. unfold RuleSetPromptingView.select, scheduled_task, bind at 1, get.
    unfold HostOnlyView.interaction_check.
    rewrite bool_decide_eq_true_2 by done. reflexivity.
  - intros v b. apply rejected_press.
Qed.

(** Rejections at a concrete session hosted by member 1: member 2 changes
    the rules, and the host tries to start alone. *)
Lemma rejection_leaves_state_witness :
  let g := UNO.set_rule_set (Some RuleSet_default)
             (UNO.__init__ [] (mkContext 1 10) None None []) in
  let v := PlayerQueueingView.__init__ g in
  RuleSetPromptingView.select (mkInteraction 2 ["jump_in"%string]) g
  = (Ret tt, g, [Respond 2 "You are not the host of this game." true]) /\
  exists notice,
    PlayerQueueingView.press PlayerQueueingView.Start (mkInteraction 1 []) v
    = (Ret tt, v, [Respond 1 notice true]).
Proof.
  intros g v. split.
  - apply (rejection_leaves_state (mkInteraction 2 ["jump_in"%string])).
    cbn. lia.
  - apply (rejection_leaves_state (mkInteraction 1 [])).
    apply start_below_minimum. vm_compute. lia.
Defined.

(** C5: entering the queueing stage adds the host to the players as a set
    union, so an already-present host leaves the set unchanged; and after
    any sequence of button presses on the queueing view (join, leave,
    start-now, by anybody) the host is still a member of the players, also
    in the set the session keeps when the stage ends. *)
Theorem host_stays_member (g : UNO.t) :
  UNO.host g ∈ PlayerQueueingView.players (PlayerQueueingView.__init__ g) /\
  (UNO.host g ∈ UNO.players g ->
   PlayerQueueingView.players (PlayerQueueingView.__init__ g) = UNO.players g) /\
  (forall evs : list (PlayerQueueingView.button * Interaction),
     exists v0 out0 v' out,
       UNO_queue_players g = (Ret tt, v0, out0) /\
       UNO.host (PlayerQueueingView.game v0) = UNO.host g /\
       UNO.host g ∈ PlayerQueueingView.players v0 /\
       PlayerQueueingView.presses evs v0 = (Ret tt, v', out) /\
       UNO.host (PlayerQueueingView.game v') = UNO.host g /\
       UNO.host g ∈ PlayerQueueingView.players v' /\
       UNO.host g ∈ UNO.players (UNO_queue_players_resume v')).
Proof.
  assert (Hmem : UNO.host g ∈ PlayerQueueingView.players (PlayerQueueingView.__init__ g)).
  { unfold PlayerQueueingView.players. cbn. apply elem_of_union_l, elem_of_singleton_2.
    reflexivity. }
  split; [exact Hmem|]. split.
  - intros Hhost. unfold PlayerQueueingView.players. cbn.
    apply subseteq_union_1_L, singleton_subseteq_l, Hhost.
  - intros evs. unfold UNO_queue_players, bind.
    unfold PlayerQueueingView.on_game at 1, zoom.
    destruct (_send_run Opening (PlayerQueueingView.game (PlayerQueueingView.__init__ g)))
      as [o ->].
    match goal with |- context [PlayerQueueingView._update ?x] =>
      set (v1 := x); destruct (_update_run v1) as [o1 ->] end.
    match goal with |- context [(Ret tt, ?x, [o] ++ [o1])] => set (v0 := x) end.
    assert (Hh0 : UNO.host (PlayerQueueingView.game v0) = UNO.host g) by reflexivity.
    assert (Hin0 : UNO.host g ∈ PlayerQueueingView.players v0) by exact Hmem.
    destruct (presses_keep_host evs v0) as (v' & out & E & Hh & Hin).
    exists v0, ([o] ++ [o1]), v', out.
    rewrite Hh0 in Hh, Hin. rewrite Hh in Hin.
    repeat split; try done; by apply Hin.
Qed.

(** The invariant at a concrete session: the host (member 1) presses
    leave, member 2 joins and leaves again. *)
Lemma host_stays_member_witness :
  let g := UNO.__init__ [] (mkContext 1 10) None None [1] in
  PlayerQueueingView.players (PlayerQueueingView.__init__ g) = UNO.players g /\
  exists v0 out0 v' out,
    UNO_queue_players g = (Ret tt, v0, out0) /\
    PlayerQueueingView.presses
      [(PlayerQueueingView.Leave, mkInteraction 1 []);
       (PlayerQueueingView.Join, mkInteraction 2 []);
       (PlayerQueueingView.Leave, mkInteraction 2 [])] v0 = (Ret tt, v', out) /\
    1 ∈ PlayerQueueingView.players v'.
Proof.
  intros g.
  destruct (host_stays_member g) as (_ & Hid & Hevs). split.
  - apply Hid. cbn. set_solver.
  - destruct (Hevs [(PlayerQueueingView.Leave, mkInteraction 1 []);
                    (PlayerQueueingView.Join, mkInteraction 2 []);
                    (PlayerQueueingView.Leave, mkInteraction 2 [])])
      as (v0 & out0 & v' & out & E0 & _ & _ & E & _ & Hin & _).
    exists v0, out0, v', out. repeat split; assumption.
Defined.

(** C10: the "Start!" button is created disabled, and every re-render of
    the roster sets its disabled flag to "more than one player". So with two
    or more players the button is disabled, and it can be pressed exactly in
    the states where the host's press is turned down by the
    fewer-than-two-players check. *)
Theorem start_button_enablement :
  (forall g : UNO.t,
     PlayerQueueingView.immediate_start_button_disabled (PlayerQueueingView.__init__ g)
     = true) /\
  (forall v : PlayerQueueingView.t,
     exists v' out,
       PlayerQueueingView._update v = (Ret tt, v', out) /\
       PlayerQueueingView.players v' = PlayerQueueingView.players v /\
       PlayerQueueingView.immediate_start_button_disabled v'
       = bool_decide (1 < size (PlayerQueueingView.players v'))%nat /\
       ((2 <= size (PlayerQueueingView.players v'))%nat ->
        PlayerQueueingView.immediate_start_button_disabled v' = true) /\
       (PlayerQueueingView.immediate_start_button_disabled v' = false <->
        forall i, user i = UNO.host (PlayerQueueingView.game v') ->
          PlayerQueueingView.immediate_start i v'
          = (Ret tt, v',
             [Respond (user i)
                "There must be at least 2 players in order to start this game." true]))).
Proof.
  split; [reflexivity|]. intros v.
  destruct (_update_run v) as [o E]. rewrite E.
  do 2 eexists. split; [reflexivity|].
  set (n := size (PlayerQueueingView.players v)).
  unfold PlayerQueueingView.players. cbn.
  fold (PlayerQueueingView.players v). fold n.
  split; [done|]. split; [done|]. split.
  - intros H. apply bool_decide_eq_true_2. lia.
  - rewrite bool_decide_eq_false. split.
    + intros Hn i Hi.
      unfold PlayerQueueingView.immediate_start, bind, get. cbn.
      rewrite bool_decide_eq_false_2 by (intros H; by apply H).
      unfold PlayerQueueingView.players. cbn.
      fold (PlayerQueueingView.players v). fold n.
      rewrite bool_decide_eq_true_2 by lia. reflexivity.
    + intros H Hn.
      specialize (H (mkInteraction (UNO.host (PlayerQueueingView.game v)) []) eq_refl).
      unfold PlayerQueueingView.immediate_start, bind, get in H. cbn in H.
      rewrite bool_decide_eq_false_2 in H by (intros H'; by apply H').
      unfold PlayerQueueingView.players in H. cbn in H.
      fold (PlayerQueueingView.players v) in H. fold n in H.
      rewrite bool_decide_eq_false_2 in H by lia. discriminate.
Qed.

(** The button after the first render of a queue of one (the host alone):
    enabled, and the host's press is turned down. *)
Lemma start_button_enablement_witness :
  let v := PlayerQueueingView.__init__ (UNO.__init__ [] (mkContext 1 10) None None []) in
  exists v' out,
    PlayerQueueingView._update v = (Ret tt, v', out) /\
    PlayerQueueingView.immediate_start_button_disabled v' = false /\
    PlayerQueueingView.immediate_start (mkInteraction 1 []) v'
    = (Ret tt, v',
       [Respond 1 "There must be at least 2 players in order to start this game." true]).
Proof.
  intros v.
  destruct start_button_enablement as [_ H].
  destruct (H v) as (v' & out & E & Hp & Hd & _ & Hiff).
  assert (Hf : PlayerQueueingView.immediate_start_button_disabled v' = false).
  { rewrite Hd, Hp. vm_compute. reflexivity. }
  exists v', out. split; [exact E|]. split; [exact Hf|].
  apply (proj1 Hiff Hf (mkInteraction 1 [])).
  assert (Hv : v' = (PlayerQueueingView._update v).1.2) by (by rewrite E).
  rewrite Hv. vm_compute. reflexivity.
Defined.

(** ** Shuffling *)

Section shuffling.

Context {A : Type}.

Implicit Types (x : list A) (r : Rng).

Lemma swap_Permutation x i j : swap x i j ≡ₚ x.
Proof.
  unfold swap.
  destruct (x !! i) as [a|] eqn:Ei; [|done].
  destruct (x !! j) as [b|] eqn:Ej; [|done].
  by apply Permutation_insert_swap.
Qed.

Lemma shuffle_from_Permutation (i : nat) : forall x r, (shuffle_from i x r).1 ≡ₚ x.
Proof.
  induction i as [|i IH]; intros x r; cbn [shuffle_from]; [done|].
  destruct (randbelow (S (S i)) r) as [j r'].
  by rewrite IH, swap_Permutation.
Qed.

Lemma shuffle_Permutation x r : (shuffle x r).1 ≡ₚ x.
Proof. apply shuffle_from_Permutation. Qed.

Lemma shuffle_length x r : length (shuffle x r).1 = length x.
Proof. by rewrite shuffle_Permutation. Qed.

End shuffling.

(** ** Dealing *)

Section dealing.

Implicit Types (g : UNO.t) (hs tl pre : list Hand.t) (cs : list Card).

Lemma dealt_length hs : forall cs, length (dealt hs cs) = length hs.
Proof. induction hs as [|h tl IH]; intros cs; cbn; [done|]. by rewrite IH. Qed.

Lemma dealt_player hs : forall cs, Hand.player <$> dealt hs cs = Hand.player <$> hs.
Proof. induction hs as [|h tl IH]; intros cs; cbn; [done|]. by rewrite IH. Qed.

(** Fresh hands hold exactly seven cards each when the cards suffice. *)
Lemma dealt_seven hs : forall cs,
  Forall (fun h => Hand._cards h = []) hs ->
  (7 * length hs <= length cs)%nat ->
  Forall (fun h => Hand.__len__ h = 7%nat) (dealt hs cs).
Proof.
  induction hs as [|h tl IH]; intros cs Hfresh Hlen; cbn [dealt]; [constructor|].
  apply Forall_cons in Hfresh as [Hh Htl]. cbn [length] in Hlen.
  constructor.
  - unfold Hand.__len__. cbn. rewrite Hh. cbn. rewrite length_take. lia.
  - apply IH; [done|]. rewrite length_drop. lia.
Qed.

(** ... and together they hold the first [7 * length hs] cards. *)
Lemma dealt_cards hs : forall cs,
  Forall (fun h => Hand._cards h = []) hs ->
  concat (Hand._cards <$> dealt hs cs) = take (7 * length hs) cs.
Proof.
  induction hs as [|h tl IH]; intros cs Hfresh; cbn [dealt fmap list_fmap concat length].
  - by rewrite Nat.mul_0_r.
  - apply Forall_cons in Hfresh as [Hh Htl].
    fold (Hand._cards <$> dealt tl (drop 7 cs)). rewrite IH by done.
    cbn [Hand._cards]. rewrite Hh. cbn [app].
    replace (7 * S (length tl))%nat with (7 + 7 * length tl)%nat by lia.
    apply take_take_drop.
Qed.

End dealing.

Section deal_loop.

Implicit Types (g : UNO.t) (tl pre : list Hand.t) (cs : list Card).

Import UNO.

(** One iteration on a deck that has seven cards. *)
Lemma deal_body_run g pre h tl cs :
  UNO.hands g = pre ++ h :: tl ->
  UNO.deck g = Deck.mk cs ->
  (7 <= length cs)%nat ->
  deal_body (length pre) g
  = (Ret tt,
     UNO.set_hands (pre ++ Hand.mk (Hand.player h) (Hand._cards h ++ take 7 cs) :: tl)
       (UNO.set_deck (Deck.mk (drop 7 cs)) g), []).
Proof.
  intros Hh Hd Hlen. unfold deal_body, bind, with_hand.
  rewrite Hh, list_lookup_middle by done. rewrite Hd.
  destruct h as [p hcs]. rewrite draw_7 by done. cbn.
  rewrite insert_app_r_alt by lia. by rewrite Nat.sub_diag.
Qed.

(** One iteration on a shorter deck raises. *)
Lemma deal_body_short g pre h tl cs :
  UNO.hands g = pre ++ h :: tl ->
  UNO.deck g = Deck.mk cs ->
  ~ (7 <= length cs)%nat ->
  exists e s out, deal_body (length pre) g = (Raise e, s, out).
Proof.
  intros Hh Hd Hlen. unfold deal_body, bind, with_hand.
  rewrite Hh, list_lookup_middle by done. rewrite Hd.
  destruct h as [p hcs].
  destruct (Hand.draw 7 (Deck.mk cs, Hand.mk p hcs)) as [[[x|e] [d' h']] out] eqn:E.
  - apply draw_7_Ret in E. contradiction.
  - eauto.
Qed.

Lemma deal_loop_run tl : forall pre g cs,
  UNO.hands g = pre ++ tl ->
  UNO.deck g = Deck.mk cs ->
  (7 * length tl <= length cs)%nat ->
  for_each (seq (length pre) (length tl)) deal_body g
  = (Ret tt,
     UNO.set_hands (pre ++ dealt tl cs)
       (UNO.set_deck (Deck.mk (drop (7 * length tl) cs)) g), []).
Proof.
  induction tl as [|h tl IH]; intros pre g cs Hh Hd Hlen.
  - cbn. change (drop 0 cs) with cs. rewrite <- Hh, <- Hd. by destruct g.
  - cbn [length seq for_each dealt]. cbn [length] in Hlen. unfold bind.
    rewrite (deal_body_run g pre h tl cs) by (done || lia).
    set (h' := Hand.mk (Hand.player h) (Hand._cards h ++ take 7 cs)).
    specialize (IH (pre ++ [h'])
      (UNO.set_hands (pre ++ h' :: tl) (UNO.set_deck (Deck.mk (drop 7 cs)) g))
      (drop 7 cs)).
    rewrite length_app, Nat.add_1_r in IH.
    rewrite IH.
    + rewrite drop_drop, <- app_assoc.
      replace (7 * S (length tl))%nat with (7 + 7 * length tl)%nat by lia.
      by destruct g.
    + cbn. by rewrite <- app_assoc.
    + reflexivity.
    + rewrite length_drop. lia.
Qed.

Lemma deal_loop_short tl : forall pre g cs,
  UNO.hands g = pre ++ tl ->
  UNO.deck g = Deck.mk cs ->
  ~ (7 * length tl <= length cs)%nat ->
  exists e s out,
    for_each (seq (length pre) (length tl)) deal_body g = (Raise e, s, out).
Proof.
  induction tl as [|h tl IH]; intros pre g cs Hh Hd Hlen.
  - cbn in Hlen. lia.
  - cbn [length seq for_each]. cbn [length] in Hlen. unfold bind.
    destruct (decide (7 <= length cs)%nat) as [H7|H7].
    + rewrite (deal_body_run g pre h tl cs) by done.
      set (h' := Hand.mk (Hand.player h) (Hand._cards h ++ take 7 cs)).
      destruct (IH (pre ++ [h'])
        (UNO.set_hands (pre ++ h' :: tl) (UNO.set_deck (Deck.mk (drop 7 cs)) g))
        (drop 7 cs)) as (e & s & out & E).
      * cbn. by rewrite <- app_assoc.
      * reflexivity.
      * rewrite length_drop. lia.
      * rewrite length_app, Nat.add_1_r in E. rewrite E. eauto.
    + destruct (deal_body_short g pre h tl cs) as (e & s & out & ->); eauto.
Qed.

Lemma _deal_cards_run g cs :
  UNO.deck g = Deck.mk cs ->
  (7 * length (UNO.hands g) <= length cs)%nat ->
  UNO._deal_cards g
  = (Ret tt,
     UNO.set_hands (dealt (UNO.hands g) cs)
       (UNO.set_deck (Deck.mk (drop (7 * length (UNO.hands g)) cs)) g), []).
Proof.
  intros Hd Hlen. unfold UNO._deal_cards, bind, get.
  pose proof (deal_loop_run (UNO.hands g) [] g cs eq_refl Hd Hlen) as E.
  cbn [length app] in E. by rewrite E.
Qed.

Lemma _deal_cards_short g cs :
  UNO.deck g = Deck.mk cs ->
  ~ (7 * length (UNO.hands g) <= length cs)%nat ->
  exists e s out, UNO._deal_cards g = (Raise e, s, out).
Proof.
  intros Hd Hlen. unfold UNO._deal_cards, bind, get.
  destruct (deal_loop_short (UNO.hands g) [] g cs eq_refl Hd Hlen)
    as (e & s & out & E).
  cbn [length app] in E. rewrite E. eauto.
Qed.

End deal_loop.

(** ** [start]: the prompts, then the setup *)

Section start.

Import UNO.

Implicit Types (g : UNO.t) (r : Rng).

Lemma _run_initial_prompts_run g r :
  let hs0 := Hand.__init__ <$> elements (players g) in
  exists o,
    _run_initial_prompts (g, r)
    = (Ret tt,
       (mk (ctx g) (host g) (Some RuleSet_default) (players g) (deck g)
           (shuffle hs0 r).1 (current g) (turn g) (Some (ChooseRuleSet (host g))),
        (shuffle hs0 r).2),
       [o]).
Proof.
  intros hs0. destruct g as [c hst rs ps d hs cur tn msg]. subst hs0. cbn [players].
  unfold _run_initial_prompts, bind, on_self, zoom, modify, choose_rule_set, get,
    _send, shuffle_hands, tell.
  cbn -[shuffle]. destruct msg; cbn -[shuffle]; destruct (shuffle _ r) as [x r1]; cbn; eauto.
Qed.

(** [_setup] up to the deal: the deck is shuffled and its front card
    becomes the current card. *)
Lemma _setup_unfold g r :
  _setup (g, r)
  = match (shuffle (Deck._internal_deck (deck g)) r).1 with
    | [] =>
        (Raise IndexError,
         (set_deck (Deck.mk []) g, (shuffle (Deck._internal_deck (deck g)) r).2), [])
    | c :: rest =>
        on_self _deal_cards
          (set_current (Some c) (set_deck (Deck.mk rest) g),
           (shuffle (Deck._internal_deck (deck g)) r).2)
    end.
Proof.
  unfold _setup, bind, modify, shuffle_deck, Deck.shuffle, on_self, zoom.
  cbn [fst snd].
  destruct (shuffle (Deck._internal_deck (deck g)) r) as [[|c rest] r'];
    cbn [fst snd]; destruct g as [cx hst rs ps d hs cur tn msg];
    cbn [deck set_deck]; [rewrite pop_nil | rewrite pop_cons]; cbn [fst snd];
    [reflexivity|].
  cbn [set_deck set_current ctx host rule_set players hands current turn _message deck].
  by destruct (_deal_cards _) as [[o s] out].
Qed.

End start.

Section start_cases.

Import UNO.

(** The three ways [start] can end: the shuffled deck is empty, the deal
    runs out of cards, or every hand gets its seven cards. *)
Lemma start_cases (g : UNO.t) (r : Rng) :
  let sh := shuffle (Hand.__init__ <$> elements (players g)) r in
  let sd := shuffle (Deck._internal_deck (deck g)) sh.2 in
  match sd.1 with
  | [] => exists s out, start (g, r) = (Raise IndexError, s, out)
  | c :: rest =>
      if decide (7 * length sh.1 <= length rest)%nat then
        exists o,
          start (g, r)
          = (Ret tt,
             (mk (ctx g) (host g) (Some RuleSet_default) (players g)
                 (Deck.mk (drop (7 * length sh.1) rest)) (dealt sh.1 rest)
                 (Some c) (turn g) (Some (ChooseRuleSet (host g))), sd.2),
             [o])
      else exists e s out, start (g, r) = (Raise e, s, out)
  end.
Proof.
  intros sh sd. unfold start, bind.
  destruct (_run_initial_prompts_run g r) as [o ->]. fold sh.
  rewrite _setup_unfold. cbn [deck]. fold sd.
  destruct sd.1 as [|c rest]; [eauto|].
  unfold on_self, zoom. cbn [fst snd set_current set_deck ctx host rule_set players
    hands current turn _message deck].
  destruct (decide _) as [Hlen|Hlen].
  - erewrite _deal_cards_run; [|reflexivity|exact Hlen]. by exists o.
  - edestruct _deal_cards_short as (e & s & out & ->); [reflexivity|exact Hlen|].
    eauto.
Qed.

End start_cases.

(** X28: dealing where there are players. For a session with [k]
    players and [turn = 0] (the constructor sets it and nothing writes it),
    [_run_initial_prompts] followed by [_setup] completes when the deck holds
    at least [7 * k + 1] cards, and whenever it completes: the players are
    unchanged, there is one hand per player ([k] hands), each hand holds
    exactly seven cards, the deck has lost exactly [7 * k + 1] cards, namely
    the current card and the cards now in the hands, and [turn] is 0, which
    for [k >= 1] is a valid index into the hands. *)
Theorem dealing_postcondition (g : UNO.t) (r : Rng) :
  UNO.turn g = 0 ->
  let k := size (UNO.players g) in
  ((7 * k + 1 <= Deck.__len__ (UNO.deck g))%nat ->
   exists g' r' out, UNO.start (g, r) = (Ret tt, (g', r'), out)) /\
  (forall g' r' out,
     UNO.start (g, r) = (Ret tt, (g', r'), out) ->
     UNO.players g' = UNO.players g /\
     length (UNO.hands g') = k /\
     Hand.player <$> UNO.hands g' ≡ₚ elements (UNO.players g) /\
     Forall (fun h => Hand.__len__ h = 7%nat) (UNO.hands g') /\
     (Deck.__len__ (UNO.deck g') + (7 * k + 1) = Deck.__len__ (UNO.deck g))%nat /\
     (exists c,
        UNO.current g' = Some c /\
        c :: concat (Hand._cards <$> UNO.hands g') ++ Deck._internal_deck (UNO.deck g')
        ≡ₚ Deck._internal_deck (UNO.deck g)) /\
     UNO.turn g' = 0 /\
     ((1 <= k)%nat ->
      exists h, UNO.current_hand g' = (Ret h, g', []) /\ UNO.hands g' !! 0%nat = Some h)).
Proof.
  intros Hturn k.
  pose proof (start_cases g r) as Hc. cbv zeta in Hc.
  set (hs0 := Hand.__init__ <$> elements (UNO.players g)) in *.
  set (sh := shuffle hs0 r) in *.
  set (sd := shuffle (Deck._internal_deck (UNO.deck g)) sh.2) in *.
  assert (Hperm : sh.1 ≡ₚ hs0) by apply shuffle_Permutation.
  assert (Hk : length sh.1 = k).
  { rewrite Hperm. subst hs0. by rewrite length_fmap. }
  assert (Hfresh : Forall (fun h => Hand._cards h = []) sh.1).
  { rewrite Hperm. subst hs0. apply Forall_fmap, Forall_true. done. }
  assert (Hdeck : sd.1 ≡ₚ Deck._internal_deck (UNO.deck g)) by apply shuffle_Permutation.
  assert (Hdl : length sd.1 = Deck.__len__ (UNO.deck g)).
  { unfold Deck.__len__. by rewrite Hdeck. }
  destruct sd.1 as [|c rest] eqn:Esd.
  { split.
    - intros H. exfalso. unfold Deck.__len__ in *. cbn in Hdl. lia.
    - intros g' r' out E. destruct Hc as (s & out' & Hc). congruence. }
  cbn [length] in Hdl. rewrite Hk in Hc.
  destruct (decide (7 * k <= length rest)%nat) as [Hlen|Hlen]; cycle 1.
  { split.
    - intros H. exfalso. unfold Deck.__len__ in *. lia.
    - intros g' r' out E. destruct Hc as (e & s & out' & Hc). congruence. }
  destruct Hc as [o Hc]. split; [eauto|].
  intros g' r' out E. rewrite Hc in E. injection E as <- <- <-.
  cbn [UNO.players UNO.hands UNO.deck UNO.current UNO.turn].
  split; [done|]. split; [by rewrite dealt_length|]. split.
  { rewrite dealt_player, Hperm. subst hs0.
    rewrite <- list_fmap_compose. by rewrite list_fmap_id. }
  split; [apply dealt_seven; [done | lia]|]. split.
  { unfold Deck.__len__ in *. cbn. rewrite length_drop. lia. }
  split.
  { exists c. split; [done|]. cbn [Deck._internal_deck].
    rewrite dealt_cards by done. rewrite Hk, take_drop. by rewrite <- Hdeck. }
  split; [done|].
  intros H1. unfold UNO.current_hand, bind, get.
  cbn [UNO.hands UNO.turn]. rewrite Hturn. unfold py_index. cbn [Z.leb Z.compare Z.to_nat].
  destruct (dealt sh.1 rest) as [|h tl] eqn:Ed.
  - apply (f_equal length) in Ed. rewrite dealt_length in Ed. cbn in Ed. lia.
  - exists h. by cbn.
Qed.

(** The postcondition at a concrete session: one player, a deck of nine
    cards, a generator that always draws 0. *)
Lemma dealing_postcondition_witness :
  let g := UNO.__init__
             [mkCard 0 0 (Some 0); mkCard 0 0 (Some 1); mkCard 0 0 (Some 2);
              mkCard 1 0 (Some 3); mkCard 1 0 (Some 4); mkCard 1 1 None;
              mkCard 2 0 (Some 6); mkCard 2 1 None; mkCard 4 2 None]
             (mkContext 1 10) None None [1] in
  exists g' r' out,
    UNO.start (g, []) = (Ret tt, (g', r'), out) /\
    length (UNO.hands g') = 1%nat /\
    Forall (fun h => Hand.__len__ h = 7%nat) (UNO.hands g') /\
    Deck.__len__ (UNO.deck g') = 1%nat /\
    UNO.turn g' = 0.
Proof.
  intros g.
  destruct (dealing_postcondition g [] eq_refl) as [Hrun Hpost].
  destruct Hrun as (g' & r' & out & E); [vm_compute; lia|].
  destruct (Hpost g' r' out E) as (_ & Hk & _ & H7 & Hd & _ & Ht & _).
  exists g', r', out. split; [exact E|]. split; [exact Hk|]. split; [exact H7|].
  split; [|exact Ht].
  change (Deck.__len__ (UNO.deck g)) with 9%nat in Hd.
  change (size (UNO.players g)) with 1%nat in Hd. lia.
Defined.

(** C1, the code at the failing input: the session the [play] command
    creates and starts at once. [start] builds the hands from the players
    right after sending the rule prompt, before the queueing stage has added
    anybody, the host included: dealing completes for [k = 0] players, one
    card is popped, [hands] stays empty and [turn = 0] indexes nothing, so
    [current_hand] raises [IndexError]. *)
Lemma dealing_without_players_turn_invalid :
  let g := UNO.__init__ [mkCard 0 0 (Some 0); mkCard 0 0 (Some 1)]
             (mkContext 1 10) None None [] in
  size (UNO.players g) = 0%nat /\
  exists g' r' out,
    UNO.start (g, []) = (Ret tt, (g', r'), out) /\
    UNO.hands g' = [] /\
    UNO.turn g' = 0 /\
    py_index (UNO.hands g') (UNO.turn g') = None /\
    UNO.current_hand g' = (Raise IndexError, g', []).
Proof.
  intros g. split; [reflexivity|].
  do 3 eexists. split; [vm_compute; reflexivity|]. cbn. repeat split.
Qed.

(** ** The [play] command and the registry *)

Section registry.

Import Extension.

Implicit Types (bot : Bot) (ctx : Context) (create_deck : list Card).

(** [game.wait()]: the class has no such attribute. *)
Lemma lookup_attribute_wait (g : UNO.t) :
  UNO.lookup_attribute "wait" g = (Raise AttributeError, g, []).
Proof. reflexivity. Qed.

(** The guarded removal never raises and leaves the channel free. *)
Lemma unregister_idempotent (channel : Z) bot :
  exists bot',
    try_except_pass KeyError (del_instance channel) bot = (Ret tt, bot', []) /\
    uno_instances bot' = delete channel (uno_instances bot) /\
    uno_instances bot' !! channel = None.
Proof.
  unfold try_except_pass, del_instance, bind, get, modify, raise.
  destruct (uno_instances bot !! channel) as [g|] eqn:E; cbn.
  - eexists. split; [reflexivity|]. cbn. split; [done|]. apply lookup_delete_eq.
  - exists bot. split; [reflexivity|]. split; [|done].
    symmetry. by apply delete_id.
Qed.

(** A [play] in a free channel registers the session and then always
    ends in an exception, before the removal: the channel stays
    registered. When dealing went through, the exception is the
    [AttributeError] of [game.wait()]. *)
Lemma play_uno_leaves_registered create_deck ctx bot :
  channel_id ctx ∉ dom (uno_instances bot) ->
  exists e bot' out,
    play_uno create_deck ctx bot = (Raise e, bot', out) /\
    channel_id ctx ∈ dom (uno_instances bot') /\
    ((exists s out', UNO.start (UNO.__init__ create_deck ctx None None [], random bot)
                     = (Ret tt, s, out')) ->
     e = AttributeError).
Proof.
  intros Hfree. unfold play_uno, bind at 1, get.
  rewrite bool_decide_eq_false_2 by done.
  set (game := UNO.__init__ create_deck ctx None None []).
  unfold bind at 1, modify. unfold bind at 1.
  unfold on_game at 1, zoom. cbn [uno_instances random].
  rewrite lookup_insert_eq. cbn [default]. change (id game) with game.
  destruct (UNO.start (game, random bot)) as [[[[]|e] [g' r']] out] eqn:E.
  - unfold bind at 1, on_game, zoom. cbn [uno_instances random fst snd].
    rewrite lookup_alter_eq, lookup_insert_eq. cbn [fmap option_fmap option_map default].
    unfold UNO.on_self, zoom. cbn [fst snd]. rewrite lookup_attribute_wait.
    do 3 eexists. split; [reflexivity|]. cbn [uno_instances]. split.
    + rewrite !dom_alter_L, dom_insert_L. set_solver.
    + done.
  - do 3 eexists. split; [reflexivity|]. cbn [uno_instances]. split.
    + rewrite dom_alter_L, dom_insert_L. set_solver.
    + intros (s & out' & ?). discriminate.
Qed.

End registry.

(** C7: a [play] command in a channel that already has a session is turned
    down with a notice; the registry, and with it the registered session
    (players, turn, hands and all the rest), is exactly as before, and no
    session is created. *)
Theorem duplicate_session_rejected (create_deck : list Card) (ctx : Context)
    (bot : Extension.Bot) :
  channel_id ctx ∈ dom (Extension.uno_instances bot) ->
  Extension.play_uno create_deck ctx bot
  = (Ret tt, bot,
     [CtxSend (Plain "An instance of UNO is already running in this channel.")]).
Proof.
  intros H. unfold Extension.play_uno, bind, get.
  rewrite bool_decide_eq_true_2 by done. reflexivity.
Qed.

(** A second [play] in channel 10, where member 1 hosts a session. *)
Lemma duplicate_session_rejected_witness :
  let running := UNO.__init__ [] (mkContext 1 10) None None [] in
  let bot := Extension.mkBot {[ 10 := running ]} [] in
  Extension.play_uno [] (mkContext 2 10) bot
  = (Ret tt, bot,
     [CtxSend (Plain "An instance of UNO is already running in this channel.")]) /\
  Extension.uno_instances bot !! 10 = Some running.
Proof.
  intros running bot. split.
  - apply (duplicate_session_rejected [] (mkContext 2 10) bot).
    cbn. rewrite dom_singleton_L. apply elem_of_singleton_2. reflexivity.
  - apply lookup_singleton_eq.
Defined.

(** C8, the code at a failing input: [play] in a free channel with a deck
    of two cards. Dealing completes, [game.wait()] raises [AttributeError]
    because the class [UNO] has no [wait], and the command ends there: the
    removal is never run and channel 10 stays registered. *)
Theorem play_uno_skips_teardown :
  exists bot' out,
    Extension.play_uno [mkCard 0 0 (Some 0); mkCard 0 0 (Some 1)] (mkContext 1 10)
      (Extension.mkBot ∅ [])
    = (Raise AttributeError, bot', out) /\
    is_Some (Extension.uno_instances bot' !! 10).
Proof.
  destruct (play_uno_leaves_registered [mkCard 0 0 (Some 0); mkCard 0 0 (Some 1)]
              (mkContext 1 10) (Extension.mkBot ∅ []))
    as (e & bot' & out & E & Hdom & He).
  - cbn. rewrite dom_empty_L. apply not_elem_of_empty.
  - rewrite He in E.
    + exists bot', out. split; [exact E|]. by apply elem_of_dom.
    + do 2 eexists. vm_compute. reflexivity.
Qed.

(** * Further properties of the code *)

(** ** Popping and drawing, also past the end of the deck *)

Section underflow.

Implicit Types (cs hs : list Card) (p : Member).

(** [n] pops in a row: the first [n] cards in deck order; when the deck is
    shorter, [IndexError] at the first pop that finds it empty. *)
Lemma comprehension_pop (n : nat) : forall cs,
  comprehension n Deck.pop (Deck.mk cs)
  = (if decide (n <= length cs)%nat then Ret (take n cs) else Raise IndexError,
     Deck.mk (drop n cs), []).
Proof.
  induction n as [|n IH]; intros cs.
  - cbn. by rewrite drop_0.
  - destruct cs as [|c cs].
    + cbn [comprehension]. unfold bind. rewrite pop_nil.
      rewrite decide_False by (cbn; lia). reflexivity.
    + cbn [comprehension]. unfold bind at 1. rewrite pop_cons.
      unfold bind at 1. rewrite IH. cbn [length take drop].
      destruct (decide (n <= length cs)%nat) as [H|H].
      * rewrite decide_True by lia. reflexivity.
      * rewrite decide_False by lia. reflexivity.
Qed.

(** The same for the draws of a hand: what the deck still had goes to the
    hand before the failing draw raises. *)
Lemma comprehension_draw_total (n : nat) : forall cs p hs,
  comprehension n Hand._draw_one (Deck.mk cs, Hand.mk p hs)
  = (if decide (n <= length cs)%nat then Ret (take n cs) else Raise IndexError,
     (Deck.mk (drop n cs), Hand.mk p (hs ++ take n cs)), []).
Proof.
  induction n as [|n IH]; intros cs p hs.
  - cbn. by rewrite drop_0, app_nil_r.
  - destruct cs as [|c cs].
    + cbn [comprehension]. unfold bind. rewrite _draw_one_nil.
      rewrite decide_False by (cbn; lia). cbn. by rewrite app_nil_r.
    + cbn [comprehension]. unfold bind at 1. rewrite _draw_one_cons.
      unfold bind at 1. rewrite IH. cbn [length take drop].
      rewrite <- app_assoc. cbn [app].
      destruct (decide (n <= length cs)%nat) as [H|H].
      * rewrite decide_True by lia. reflexivity.
      * rewrite decide_False by lia. reflexivity.
Qed.

Lemma draw_total (amount : Z) cs p hs :
  Hand.draw amount (Deck.mk cs, Hand.mk p hs)
  = (if decide (Z.to_nat amount <= length cs)%nat then
       Ret (if amount =? 1 then
              match cs with c :: _ => Hand.One c | [] => Hand.Many [] end
            else Hand.Many (take (Z.to_nat amount) cs))
     else Raise IndexError,
     (Deck.mk (drop (Z.to_nat amount) cs),
      Hand.mk p (hs ++ take (Z.to_nat amount) cs)), []).
Proof.
  unfold Hand.draw. destruct (Z.eqb_spec amount 1) as [->|Hne].
  - change (Z.to_nat 1) with 1%nat. destruct cs as [|c cs].
    + unfold bind. rewrite _draw_one_nil. cbn. by rewrite app_nil_r.
    + unfold bind. rewrite _draw_one_cons.
      rewrite decide_True by (cbn; lia). cbn. by rewrite drop_0.
  - unfold bind. rewrite comprehension_draw_total.
    by destruct (decide _).
Qed.

End underflow.

(** X1: [n] consecutive [Deck.pop]s return the first [n] cards in deck
    order and leave the rest; on a deck of fewer than [n] cards the pop that
    finds the deck empty raises [IndexError], the deck staying empty. *)
Theorem Deck_pops_in_order (n : nat) (d : Deck.t) :
  comprehension n Deck.pop d
  = (if decide (n <= Deck.__len__ d)%nat
     then Ret (take n (Deck._internal_deck d)) else Raise IndexError,
     Deck.mk (drop n (Deck._internal_deck d)), []) /\
  ((Deck.__len__ d < n)%nat -> drop n (Deck._internal_deck d) = []).
Proof.
  destruct d as [cs]. split.
  - apply comprehension_pop.
  - intros H. apply drop_ge. unfold Deck.__len__ in H. cbn in *. lia.
Qed.

(** Three pops asked of a deck of two cards. *)
Lemma Deck_pops_in_order_witness :
  comprehension 3 Deck.pop (Deck.mk [mkCard 0 0 (Some 1); mkCard 1 1 None])
  = (Raise IndexError, Deck.mk [], []).
Proof.
  destruct (Deck_pops_in_order 3 (Deck.mk [mkCard 0 0 (Some 1); mkCard 1 1 None]))
    as [E Hd].
  rewrite E, Hd by (cbn; lia). reflexivity.
Defined.

(** X2: [Hand.draw(n)] on a deck of fewer than [n] cards raises
    [IndexError] without rolling back: every card the deck still had has
    been moved to the hand, in order, and the deck is left empty. *)
Theorem Hand_draw_underflow (amount : Z) (d : Deck.t) (h : Hand.t) :
  (Deck.__len__ d < Z.to_nat amount)%nat ->
  Hand.draw amount (d, h)
  = (Raise IndexError,
     (Deck.mk [], Hand.mk (Hand.player h) (Hand._cards h ++ Deck._internal_deck d)),
     []).
Proof.
  intros H. destruct d as [cs], h as [p hs]. unfold Deck.__len__ in H. cbn in H.
  rewrite draw_total. cbn [Hand.player Hand._cards Deck._internal_deck].
  rewrite decide_False by lia.
  rewrite drop_ge, take_ge by lia. reflexivity.
Qed.

(** Seven cards asked of a deck of two. *)
Lemma Hand_draw_underflow_witness :
  Hand.draw 7 (Deck.mk [mkCard 0 0 (Some 1); mkCard 1 1 None], Hand.mk 5 [])
  = (Raise IndexError,
     (Deck.mk [], Hand.mk 5 [mkCard 0 0 (Some 1); mkCard 1 1 None]), []).
Proof.
  apply (Hand_draw_underflow 7 (Deck.mk [mkCard 0 0 (Some 1); mkCard 1 1 None])
           (Hand.mk 5 [])).
  cbn. lia.
Defined.

(** X3: [Hand.draw(n)] for [n <= 0] draws nothing: it returns the empty
    list and leaves the hand and the deck as they were, whatever the deck
    holds (an empty one included). *)
Theorem Hand_draw_nothing (amount : Z) (d : Deck.t) (h : Hand.t) :
  amount <= 0 ->
  Hand.draw amount (d, h) = (Ret (Hand.Many []), (d, h), []).
Proof.
  intros H. destruct d as [cs], h as [p hs]. rewrite draw_total.
  replace (Z.to_nat amount) with 0%nat by lia.
  rewrite decide_True by lia.
  destruct (Z.eqb_spec amount 1); [lia|].
  cbn. by rewrite drop_0, app_nil_r.
Qed.

Lemma Hand_draw_nothing_witness :
  Hand.draw (-2) (Deck.mk [], Hand.mk 5 [mkCard 0 0 (Some 1)])
  = (Ret (Hand.Many []), (Deck.mk [], Hand.mk 5 [mkCard 0 0 (Some 1)]), []).
Proof.
  apply (Hand_draw_nothing (-2) (Deck.mk []) (Hand.mk 5 [mkCard 0 0 (Some 1)])).
  lia.
Defined.

(** X4: whatever the amount and however it ends, [Hand.draw] neither loses
    nor invents a card and sends nothing: the hand followed by the deck is
    the same sequence of cards before and after, the hand only grows at its
    end and keeps its owner. *)
Theorem Hand_draw_conserves (amount : Z) (d d' : Deck.t) (h h' : Hand.t)
    (o : outcome Hand.drawn) (out : list Output) :
  Hand.draw amount (d, h) = (o, (d', h'), out) ->
  out = [] /\
  Hand.player h' = Hand.player h /\
  Hand._cards h' ++ Deck._internal_deck d' = Hand._cards h ++ Deck._internal_deck d /\
  Hand._cards h `prefix_of` Hand._cards h' /\
  (forall e, o = Raise e -> e = IndexError /\ Deck._internal_deck d' = []).
Proof.
  destruct d as [cs], h as [p hs]. rewrite draw_total. intros E.
  injection E as <- <- <- <-. cbn.
  split; [done|]. split; [done|]. split.
  { by rewrite <- app_assoc, take_drop. }
  split; [by eexists|].
  intros e. destruct (decide _) as [H|H]; [discriminate|].
  intros [= <-]. split; [done|]. apply drop_ge. lia.
Qed.

Lemma Hand_draw_conserves_witness :
  exists o d' h',
    Hand.draw 2 (Deck.mk [mkCard 0 0 (Some 1); mkCard 1 1 None; mkCard 4 2 None],
                 Hand.mk 5 [mkCard 3 0 (Some 4)]) = (o, (d', h'), []) /\
    Hand._cards h' ++ Deck._internal_deck d'
    = [mkCard 3 0 (Some 4); mkCard 0 0 (Some 1); mkCard 1 1 None; mkCard 4 2 None].
Proof.
  do 3 eexists. split; [reflexivity|].
  apply (Hand_draw_conserves 2
    (Deck.mk [mkCard 0 0 (Some 1); mkCard 1 1 None; mkCard 4 2 None]) _
    (Hand.mk 5 [mkCard 3 0 (Some 4)]) _ _ [] eq_refl).
Defined.

(** X5: draws compose: drawing [a] cards and then [b] cards (both at least
    0, the deck holding [a + b]) leaves the hand and the deck exactly as
    drawing [a + b] cards at once does. *)
Theorem Hand_draw_twice (a b : Z) (d : Deck.t) (h : Hand.t) :
  0 <= a -> 0 <= b ->
  (Z.to_nat (a + b) <= Deck.__len__ d)%nat ->
  exists r r2 s,
    Hand.draw (a + b) (d, h) = (Ret r, s, []) /\
    (Hand.draw a ;;; Hand.draw b) (d, h) = (Ret r2, s, []).
Proof.
  intros Ha Hb Hlen. destruct d as [cs], h as [p hs].
  unfold Deck.__len__ in Hlen. cbn in Hlen.
  do 3 eexists. unfold bind. rewrite !draw_total.
  rewrite (decide_True (P := (Z.to_nat a <= length cs)%nat)) by lia.
  cbv beta iota. rewrite length_drop.
  rewrite (decide_True (P := (Z.to_nat b <= length cs - Z.to_nat a)%nat)) by lia.
  rewrite (decide_True (P := (Z.to_nat (a + b) <= length cs)%nat)) by lia.
  split; [reflexivity|].
  cbn [app]. rewrite drop_drop, <- app_assoc, take_take_drop.
  by replace (Z.to_nat a + Z.to_nat b)%nat with (Z.to_nat (a + b)) by lia.
Qed.

Lemma Hand_draw_twice_witness :
  exists r r2 s,
    Hand.draw 3
      (Deck.mk [mkCard 0 0 (Some 1); mkCard 1 1 None; mkCard 4 2 None], Hand.mk 5 [])
    = (Ret r, s, []) /\
    (Hand.draw 1 ;;; Hand.draw 2)
      (Deck.mk [mkCard 0 0 (Some 1); mkCard 1 1 None; mkCard 4 2 None], Hand.mk 5 [])
    = (Ret r2, s, []).
Proof.
  apply (Hand_draw_twice 1 2
    (Deck.mk [mkCard 0 0 (Some 1); mkCard 1 1 None; mkCard 4 2 None]) (Hand.mk 5 []));
    [lia | lia | cbn; lia].
Defined.

(** ** More on the sorted view *)

Section sorted_more.

Context {A : Type} (key : A -> Z * Z * Z).

Lemma key_leb_refl (a : Z * Z * Z) : Hand.key_leb a a = true.
Proof. apply key_leb_lex_le. unfold lex_le. lia. Qed.

(** Inserting keeps the cards of every key in their order: the new card
    only passes cards of a strictly smaller key. *)
Lemma insert_by_filter (k : Z * Z * Z) (x : A) (l : list A) :
  filter (fun y => key y = k) (Hand.insert_by key x l)
  = filter (fun y => key y = k) (x :: l).
Proof.
  induction l as [|y l IH]; cbn [Hand.insert_by]; [done|].
  destruct (Hand.key_leb (key x) (key y)) eqn:E; [done|].
  rewrite filter_cons, IH, !filter_cons.
  destruct (decide (key y = k)) as [Hy|Hy], (decide (key x = k)) as [Hx|Hx];
    try done.
  rewrite <- Hy in Hx. rewrite Hx, key_leb_refl in E. discriminate.
Qed.

Lemma sorted_filter (k : Z * Z * Z) (l : list A) :
  filter (fun y => key y = k) (Hand.sorted l key) = filter (fun y => key y = k) l.
Proof.
  induction l as [|x l IH]; [done|].
  cbn [Hand.sorted foldr]. fold (Hand.sorted l key).
  by rewrite insert_by_filter, !filter_cons, IH.
Qed.

(** A list that is in order already is returned as it is. *)
Lemma sorted_fixed (l : list A) :
  StronglySorted (le_by key) l -> Hand.sorted l key = l.
Proof.
  induction 1 as [|x l Hl IH Hx]; [done|].
  cbn [Hand.sorted foldr]. fold (Hand.sorted l key). rewrite IH.
  destruct l as [|y l]; [done|]. cbn [Hand.insert_by].
  apply Forall_cons in Hx as [Hxy _]. apply key_leb_lex_le in Hxy. by rewrite Hxy.
Qed.

End sorted_more.

(** X6: the sorted view is stable: for every sort key, the cards of a hand
    that have this key (equal colour, type and number) appear in
    [Hand.cards] in the order in which the hand stores them. *)
Theorem Hand_cards_stable (h : Hand.t) (k : Z * Z * Z) :
  exists l,
    Hand.cards h = (Ret l, h, []) /\
    filter (fun c => Hand._card_sort_key c = k) l
    = filter (fun c => Hand._card_sort_key c = k) (Hand._cards h).
Proof.
  eexists. split; [reflexivity|]. apply sorted_filter.
Qed.

(** X7: reading [Hand.cards] of a hand whose cards are stored in sorted
    order returns the stored sequence itself; in particular the view of a
    hand that stores a view is that view again. *)
Theorem Hand_cards_of_sorted (h : Hand.t) :
  (StronglySorted card_le (Hand._cards h) ->
   Hand.cards h = (Ret (Hand._cards h), h, [])) /\
  (forall l, Hand.cards h = (Ret l, h, []) ->
     Hand.cards (Hand.mk (Hand.player h) l) = (Ret l, Hand.mk (Hand.player h) l, [])).
Proof.
  assert (Hle : forall l, StronglySorted card_le l ->
                          StronglySorted (le_by Hand._card_sort_key) l).
  { intros l H. induction H as [|x l Hl IH Hx]; constructor; [exact IH|].
    eapply Forall_impl; [exact Hx|]. intros y Hy.
    unfold le_by. by rewrite !_card_sort_key_spec. }
  split.
  - intros H. unfold Hand.cards, bind, get, ret. cbn.
    by rewrite sorted_fixed by (by apply Hle).
  - intros l E.
    assert (l = Hand.sorted (Hand._cards h) Hand._card_sort_key) as ->.
    { unfold Hand.cards, bind, get, ret in E. cbn in E. congruence. }
    unfold Hand.cards, bind, get, ret. cbn -[Hand.sorted].
    by rewrite (sorted_fixed _ (Hand.sorted _ _)) by apply sorted_StronglySorted.
Qed.

Lemma Hand_cards_of_sorted_witness :
  let h := Hand.mk 5 [mkCard 0 0 (Some 1); mkCard 0 0 (Some 7); mkCard 2 1 None] in
  Hand.cards h = (Ret (Hand._cards h), h, []).
Proof.
  intros h. apply (Hand_cards_of_sorted h).
  repeat constructor; unfold card_le, lex_le; cbn; lia.
Defined.

(** ** Shuffling the deck *)

(** X8: [Deck.shuffle] only reorders: the shuffled deck is a permutation
    of the deck, so it has the same length and the same cards as often; a
    deck of at most one card is left as it is and the generator is not
    consulted. *)
Theorem Deck_shuffle_permutes (d : Deck.t) (r : Rng) :
  Deck._internal_deck (Deck.shuffle d r).1 ≡ₚ Deck._internal_deck d /\
  Deck.__len__ (Deck.shuffle d r).1 = Deck.__len__ d /\
  ((Deck.__len__ d <= 1)%nat -> Deck.shuffle d r = (d, r)).
Proof.
  destruct d as [cs]. unfold Deck.shuffle, Deck.__len__. cbn [Deck._internal_deck].
  pose proof (shuffle_Permutation cs r) as Hp.
  destruct (shuffle cs r) as [x r'] eqn:E. cbn in *.
  split; [exact Hp|]. split; [by rewrite Hp|].
  intros Hlen. unfold shuffle in E.
  replace (length cs - 1)%nat with 0%nat in E by lia. cbn in E. congruence.
Qed.

Lemma Deck_shuffle_permutes_witness :
  Deck.shuffle (Deck.mk [mkCard 4 2 None]) [3%nat; 1%nat]
  = (Deck.mk [mkCard 4 2 None], [3%nat; 1%nat]).
Proof.
  apply (Deck_shuffle_permutes (Deck.mk [mkCard 4 2 None]) [3%nat; 1%nat]).
  cbn. lia.
Defined.

(** ** Dealing, however it ends *)

Section deal_total.

Import UNO.

Implicit Types (g : UNO.t) (tl pre : list Hand.t) (cs : list Card).

Lemma dealt_nil tl : dealt tl [] = tl.
Proof.
  induction tl as [|[p hs] tl IH]; cbn; [done|].
  by rewrite app_nil_r, IH.
Qed.

Lemma deal_body_total g pre h tl cs :
  hands g = pre ++ h :: tl ->
  deck g = Deck.mk cs ->
  deal_body (length pre) g
  = (if decide (7 <= length cs)%nat then Ret tt else Raise IndexError,
     set_hands (pre ++ Hand.mk (Hand.player h) (Hand._cards h ++ take 7 cs) :: tl)
       (set_deck (Deck.mk (drop 7 cs)) g), []).
Proof.
  intros Hh Hd. unfold deal_body, bind, with_hand.
  rewrite Hh, list_lookup_middle by done. rewrite Hd.
  destruct h as [p hcs]. rewrite draw_total. change (Z.to_nat 7) with 7%nat.
  cbn [Hand.player Hand._cards].
  rewrite insert_app_r_alt by lia. rewrite Nat.sub_diag. cbn [list_insert].
  by destruct (decide _).
Qed.

(** The loop stops at the first hand the deck cannot serve; this hand has
    taken what was left, the hands after it are untouched. With [dealt]
    this is the same closed form as for a complete deal. *)
Lemma deal_loop_total tl : forall pre g cs,
  hands g = pre ++ tl ->
  deck g = Deck.mk cs ->
  for_each (seq (length pre) (length tl)) deal_body g
  = (if decide (7 * length tl <= length cs)%nat then Ret tt else Raise IndexError,
     set_hands (pre ++ dealt tl cs)
       (set_deck (Deck.mk (drop (7 * length tl) cs)) g), []).
Proof.
  induction tl as [|h tl IH]; intros pre g cs Hh Hd.
  - cbn. change (drop 0 cs) with cs. rewrite <- Hh, <- Hd. by destruct g.
  - cbn [length seq for_each dealt]. unfold bind.
    rewrite (deal_body_total g pre h tl cs) by done.
    set (h' := Hand.mk (Hand.player h) (Hand._cards h ++ take 7 cs)).
    destruct (decide (7 <= length cs)%nat) as [H7|H7].
    + specialize (IH (pre ++ [h'])
        (set_hands (pre ++ h' :: tl) (set_deck (Deck.mk (drop 7 cs)) g))
        (drop 7 cs)).
      rewrite length_app, Nat.add_1_r in IH.
      rewrite IH; [|cbn; by rewrite <- app_assoc|reflexivity].
      rewrite drop_drop, <- app_assoc, length_drop.
      replace (7 * S (length tl))%nat with (7 + 7 * length tl)%nat by lia.
      destruct (decide (7 * length tl <= length cs - 7)%nat) as [H|H].
      * rewrite decide_True by lia. by destruct g.
      * rewrite decide_False by lia. by destruct g.
    + rewrite decide_False by lia.
      rewrite (drop_ge cs 7), (drop_ge cs (7 * S (length tl))) by lia.
      rewrite dealt_nil. by destruct g.
Qed.

Lemma _deal_cards_total g cs :
  deck g = Deck.mk cs ->
  _deal_cards g
  = (if decide (7 * length (hands g) <= length cs)%nat
     then Ret tt else Raise IndexError,
     set_hands (dealt (hands g) cs)
       (set_deck (Deck.mk (drop (7 * length (hands g)) cs)) g), []).
Proof.
  intros Hd. unfold _deal_cards, bind, get.
  pose proof (deal_loop_total (hands g) [] g cs eq_refl Hd) as E.
  cbn [length app] in E. rewrite E. by destruct (decide _).
Qed.

(** The cards of [dealt]: hand by hand what the hands held, and between
    them the first [7 * length hs] cards. As a multiset: *)
Lemma dealt_cards_Permutation tl : forall cs,
  concat (Hand._cards <$> dealt tl cs) ++ drop (7 * length tl) cs
  ≡ₚ concat (Hand._cards <$> tl) ++ cs.
Proof.
  induction tl as [|h tl IH]; intros cs; [done|].
  cbn [dealt fmap list_fmap concat length Hand._cards].
  fold (Hand._cards <$> dealt tl (drop 7 cs)). fold (Hand._cards <$> tl).
  replace (7 * S (length tl))%nat with (7 + 7 * length tl)%nat by lia.
  rewrite <- drop_drop, <- !app_assoc, IH.
  rewrite (Permutation_app_comm (take 7 cs)), <- !app_assoc.
  rewrite (Permutation_app_comm (drop 7 cs)), take_drop. done.
Qed.

(** [start] in closed form, for every session and generator. *)
Lemma start_total g r :
  let sh := shuffle (Hand.__init__ <$> elements (players g)) r in
  let sd := shuffle (Deck._internal_deck (deck g)) sh.2 in
  exists o,
    (_message g = None -> o = CtxSend (ChooseRuleSet (host g))) /\
    (is_Some (_message g) -> o = MessageEdit (ChooseRuleSet (host g))) /\
    start (g, r)
    = match sd.1 with
      | [] =>
          (Raise IndexError,
           (mk (ctx g) (host g) (Some RuleSet_default) (players g) (Deck.mk [])
               sh.1 (current g) (turn g) (Some (ChooseRuleSet (host g))), sd.2),
           [o])
      | c :: rest =>
          (if decide (7 * length sh.1 <= length rest)%nat
           then Ret tt else Raise IndexError,
           (mk (ctx g) (host g) (Some RuleSet_default) (players g)
               (Deck.mk (drop (7 * length sh.1) rest)) (dealt sh.1 rest)
               (Some c) (turn g) (Some (ChooseRuleSet (host g))), sd.2),
           [o])
      end.
Proof.
  intros sh sd.
  exists (match _message g with
          | None => CtxSend (ChooseRuleSet (host g))
          | Some _ => MessageEdit (ChooseRuleSet (host g))
          end).
  split; [by intros ->|]. split; [by intros [? ->]|].
  unfold start, bind.
  assert (Hrun : _run_initial_prompts (g, r)
    = (Ret tt,
       (mk (ctx g) (host g) (Some RuleSet_default) (players g) (deck g)
           sh.1 (current g) (turn g) (Some (ChooseRuleSet (host g))), sh.2),
       [match _message g with
        | None => CtxSend (ChooseRuleSet (host g))
        | Some _ => MessageEdit (ChooseRuleSet (host g))
        end])).
  { subst sh. destruct g as [c hst rs ps d hs cur tn msg]. cbn [players].
    unfold _run_initial_prompts, bind, on_self, zoom, modify, choose_rule_set, get,
      _send, shuffle_hands, tell.
    cbn -[shuffle]. destruct msg; cbn -[shuffle];
      destruct (shuffle _ r) as [x r1]; reflexivity. }
  rewrite Hrun, _setup_unfold. cbn [deck]. fold sd.
  destruct sd.1 as [|c rest]; [reflexivity|].
  unfold on_self, zoom. cbn [fst snd set_current set_deck ctx host rule_set players
    hands current turn _message deck].
  erewrite _deal_cards_total by reflexivity.
  cbn [set_hands set_deck ctx host rule_set players hands current turn _message deck].
  by destruct (decide _).
Qed.

End deal_total.

(** X9: [_deal_cards] in every case. It succeeds exactly when the deck
    holds seven cards for each hand and raises [IndexError] otherwise, the
    deck then being empty; either way it sends nothing, the hands keep their
    owners and order, no card is lost or added between the hands and the
    deck, and nothing else of the session changes. *)
Theorem _deal_cards_outcome (g g' : UNO.t) (o : outcome unit) (out : list Output) :
  UNO._deal_cards g = (o, g', out) ->
  out = [] /\
  (o = Ret tt <-> (7 * length (UNO.hands g) <= Deck.__len__ (UNO.deck g))%nat) /\
  (o <> Ret tt -> o = Raise IndexError /\ UNO.deck g' = Deck.mk []) /\
  Hand.player <$> UNO.hands g' = Hand.player <$> UNO.hands g /\
  cards_in_play g' ≡ₚ cards_in_play g /\
  UNO.set_hands (UNO.hands g) (UNO.set_deck (UNO.deck g) g') = g.
Proof.
  destruct (UNO.deck g) as [cs] eqn:Hd. rewrite (_deal_cards_total g cs Hd).
  intros E. injection E as <- <- <-. unfold Deck.__len__, cards_in_play.
  cbn [Deck._internal_deck]. split; [done|].
  destruct g as [c hst rs ps d hs cur tn msg]. cbn in Hd. subst d.
  cbn [UNO.hands UNO.deck UNO.set_hands UNO.set_deck Deck._internal_deck
       UNO.ctx UNO.host UNO.rule_set UNO.players UNO.current UNO.turn UNO._message].
  split; [|split; [|split; [|split]]].
  - destruct (decide _); split; done.
  - destruct (decide _) as [H|H]; [done|]. intros _. split; [done|].
    f_equal. apply drop_ge. lia.
  - apply dealt_player.
  - apply dealt_cards_Permutation.
  - reflexivity.
Qed.

(** Two hands and a deck of nine cards: the second hand gets the two cards
    left and the deal fails. *)
Lemma _deal_cards_outcome_witness :
  let cs := [mkCard 0 0 (Some 0); mkCard 0 0 (Some 1); mkCard 0 0 (Some 2);
             mkCard 1 0 (Some 3); mkCard 1 0 (Some 4); mkCard 1 1 None;
             mkCard 2 0 (Some 6); mkCard 2 1 None; mkCard 4 2 None] in
  let g := UNO.set_hands [Hand.__init__ 1; Hand.__init__ 2]
             (UNO.__init__ cs (mkContext 1 10) None None [1; 2]) in
  exists g',
    UNO._deal_cards g = (Raise IndexError, g', []) /\
    UNO.deck g' = Deck.mk [] /\
    cards_in_play g' ≡ₚ cs.
Proof.
  intros cs g.
  destruct (UNO._deal_cards g) as [[o g'] out] eqn:E.
  destruct (_deal_cards_outcome g g' o out E) as (-> & Ho & Hfail & _ & Hc & _).
  destruct Hfail as [-> Hd].
  { intros ->. apply proj1 in Ho. specialize (Ho eq_refl). vm_compute in Ho. lia. }
  exists g'. split; [reflexivity|]. split; [exact Hd|]. exact Hc.
Defined.

(** X10: [start] in every case. The rule set is reset to the defaults
    whatever the session was given, one hand per player is built, and host,
    players and turn are left alone. It fails exactly when the deck holds
    fewer than [7 * k + 1] cards, always with [IndexError] and leaving the
    deck empty; the rule prompt has been sent all the same. *)
Theorem start_outcome (g g' : UNO.t) (r r' : Rng) (o : outcome unit)
    (out : list Output) :
  UNO.start (g, r) = (o, (g', r'), out) ->
  let k := size (UNO.players g) in
  UNO.rule_set g' = Some RuleSet_default /\
  UNO.host g' = UNO.host g /\ UNO.players g' = UNO.players g /\
  UNO.turn g' = UNO.turn g /\
  Hand.player <$> UNO.hands g' ≡ₚ elements (UNO.players g) /\
  (exists shown, out = [shown] /\ UNO._message g' = Some (ChooseRuleSet (UNO.host g))) /\
  (o = Ret tt <-> (7 * k + 1 <= Deck.__len__ (UNO.deck g))%nat) /\
  (forall e, o = Raise e -> e = IndexError /\ UNO.deck g' = Deck.mk []).
Proof.
  intros E k. destruct (start_total g r) as (shown & _ & _ & Es). cbv zeta in Es.
  set (hs0 := Hand.__init__ <$> elements (UNO.players g)) in *.
  set (sh := shuffle hs0 r) in *.
  set (sd := shuffle (Deck._internal_deck (UNO.deck g)) sh.2) in *.
  assert (Hperm : sh.1 ≡ₚ hs0) by apply shuffle_Permutation.
  assert (Hk : length sh.1 = k).
  { rewrite Hperm. subst hs0. by rewrite length_fmap. }
  assert (Hpl : Hand.player <$> sh.1 ≡ₚ elements (UNO.players g)).
  { rewrite Hperm. subst hs0. rewrite <- list_fmap_compose. by rewrite list_fmap_id. }
  assert (Hdl : length sd.1 = Deck.__len__ (UNO.deck g)).
  { unfold Deck.__len__. subst sd. by rewrite shuffle_Permutation. }
  rewrite Es in E. clear Es. unfold Deck.__len__ in *. destruct sd.1 as [|c rest].
  - injection E as <- <- <- <-. cbn. cbn in Hdl.
    do 4 (split; [done|]). split; [exact Hpl|]. split; [eauto|]. split.
    + split; [done | lia].
    + intros e [= <-]. done.
  - injection E as <- <- <- <-. cbn. cbn in Hdl. rewrite Hk.
    do 4 (split; [done|]). split; [by rewrite dealt_player|]. split; [eauto|]. split.
    + destruct (decide _); split; (done || lia).
    + intros e. destruct (decide _) as [H|H]; [done|]. intros [= <-].
      split; [done|]. f_equal. apply drop_ge. lia.
Qed.

(** A session that was given a rule set and two players, on a deck of
    three cards. *)
Lemma start_outcome_witness :
  let g := UNO.__init__ [mkCard 0 0 (Some 0); mkCard 0 0 (Some 1); mkCard 4 2 None]
             (mkContext 1 10) None (Some (mkRuleSet false false true true)) [1; 2] in
  exists g' r' out,
    UNO.start (g, []) = (Raise IndexError, (g', r'), out) /\
    UNO.rule_set g' = Some RuleSet_default /\
    UNO.deck g' = Deck.mk [].
Proof.
  intros g. destruct (UNO.start (g, [])) as [[o [g' r']] out] eqn:E.
  destruct (start_outcome g g' [] r' o out E) as (Hrs & _ & _ & _ & _ & _ & Ho & Hfail).
  destruct o as [[]|e].
  - apply proj1 in Ho. specialize (Ho eq_refl). vm_compute in Ho. lia.
  - destruct (Hfail e eq_refl) as [-> Hd]. exists g', r', out. done.
Defined.

Lemma fresh_hands_no_cards (hs : list Hand.t) :
  Forall (fun h => Hand._cards h = []) hs -> concat (Hand._cards <$> hs) = [].
Proof.
  induction 1 as [|h l Hh _ IH]; [done|]. cbn. rewrite Hh. exact IH.
Qed.

(** X11: [start] never loses a card, however it ends: for a session that
    has no current card yet, the current card (if one was popped), the cards
    in the hands and the cards left in the deck are together the cards of
    the deck as it was, each as often. *)
Theorem start_conserves_cards (g g' : UNO.t) (r r' : Rng) (o : outcome unit)
    (out : list Output) :
  UNO.current g = None ->
  UNO.start (g, r) = (o, (g', r'), out) ->
  option_list (UNO.current g') ++ cards_in_play g'
  ≡ₚ Deck._internal_deck (UNO.deck g).
Proof.
  intros Hcur E. destruct (start_total g r) as (shown & _ & _ & Es). cbv zeta in Es.
  set (hs0 := Hand.__init__ <$> elements (UNO.players g)) in *.
  set (sh := shuffle hs0 r) in *.
  set (sd := shuffle (Deck._internal_deck (UNO.deck g)) sh.2) in *.
  assert (Hfresh : concat (Hand._cards <$> sh.1) = []).
  { apply fresh_hands_no_cards. subst sh. rewrite shuffle_Permutation. subst hs0.
    apply Forall_fmap, Forall_true. done. }
  assert (Hdeck : sd.1 ≡ₚ Deck._internal_deck (UNO.deck g)) by apply shuffle_Permutation.
  rewrite Es in E. clear Es. unfold cards_in_play. destruct sd.1 as [|c rest].
  - injection E as <- <- <- <-. cbn. by rewrite Hcur, Hfresh, <- Hdeck.
  - injection E as <- <- <- <-. cbn [UNO.current UNO.hands UNO.deck option_list app
      Deck._internal_deck].
    by rewrite dealt_cards_Permutation, Hfresh, <- Hdeck.
Qed.

Lemma start_conserves_cards_witness :
  let cs := [mkCard 0 0 (Some 0); mkCard 0 0 (Some 1); mkCard 4 2 None] in
  let g := UNO.__init__ cs (mkContext 1 10) None None [1; 2] in
  option_list (UNO.current (UNO.start (g, [])).1.2.1)
  ++ cards_in_play (UNO.start (g, [])).1.2.1 ≡ₚ cs.
Proof.
  intros cs g. destruct (UNO.start (g, [])) as [[o [g' r']] out] eqn:E.
  apply (start_conserves_cards g g' [] r' o out eq_refl E).
Defined.

(** ** Looking up hands *)

Section lookups.

Implicit Types (hs : list Hand.t) (p : Member).

Lemma find_player_Some hs p :
  p ∈ Hand.player <$> hs ->
  exists h, find (fun h => bool_decide (Hand.player h = p)) hs = Some h /\
            Hand.player h = p /\ h ∈ hs.
Proof.
  induction hs as [|h hs IH]; cbn; [by intros ?%elem_of_nil|].
  intros Hin. case_bool_decide as Hp.
  - exists h. repeat split; [done|]. apply list_elem_of_here.
  - apply elem_of_cons in Hin as [Heq|Hin]; [congruence|].
    destruct (IH Hin) as (h' & E & Hp' & Hin'). exists h'.
    repeat split; [done..|]. by apply list_elem_of_further.
Qed.

Lemma find_player_None hs p :
  p ∉ Hand.player <$> hs ->
  find (fun h => bool_decide (Hand.player h = p)) hs = None.
Proof.
  induction hs as [|h hs IH]; cbn; [done|].
  intros Hin. apply not_elem_of_cons in Hin as [Hne Hin].
  rewrite bool_decide_eq_false_2 by congruence. by apply IH.
Qed.

End lookups.

(** X12: [current_hand] and [current_player] index [hands] with [turn]
    the way Python does: they succeed exactly for
    [-len(hands) <= turn < len(hands)], a negative turn counting from the
    end, and raise [IndexError] otherwise, in particular on a session
    without hands; the session is left as it is. *)
Theorem current_hand_bounds (g : UNO.t) :
  let n := Z.of_nat (length (UNO.hands g)) in
  (- n <= UNO.turn g < n ->
   exists h,
     UNO.hands g !! Z.to_nat (UNO.turn g mod n) = Some h /\
     UNO.current_hand g = (Ret h, g, []) /\
     UNO.current_player g = (Ret (Hand.player h), g, [])) /\
  (~ (- n <= UNO.turn g < n) ->
   UNO.current_hand g = (Raise IndexError, g, []) /\
   UNO.current_player g = (Raise IndexError, g, [])).
Proof.
  intros n. unfold UNO.current_player, UNO.current_hand, bind, get, py_index.
  fold n. split.
  - intros Hb. destruct (Z.leb_spec 0 (UNO.turn g)) as [H0|H0].
    + rewrite Z.mod_small by lia.
      destruct (lookup_lt_is_Some_2 (UNO.hands g) (Z.to_nat (UNO.turn g)))
        as [h Hh]; [lia|].
      rewrite Hh. by exists h.
    + rewrite (proj2 (Z.leb_le 0 (n + UNO.turn g))) by lia.
      replace (UNO.turn g mod n) with (n + UNO.turn g).
      2:{ apply Z.mod_unique with (-1); lia. }
      destruct (lookup_lt_is_Some_2 (UNO.hands g) (Z.to_nat (n + UNO.turn g)))
        as [h Hh]; [lia|].
      rewrite Hh. by exists h.
  - intros Hb. destruct (Z.leb_spec 0 (UNO.turn g)) as [H0|H0].
    + rewrite lookup_ge_None_2 by lia. done.
    + rewrite (proj2 (Z.leb_gt 0 (n + UNO.turn g))) by lia. done.
Qed.

(** The last hand for [turn = -1], and no hand for [turn = 2], of two. *)
Lemma current_hand_bounds_witness :
  let g := UNO.set_hands [Hand.__init__ 1; Hand.__init__ 2]
             (UNO.__init__ [] (mkContext 1 10) None None [1; 2]) in
  let back := UNO.mk (UNO.ctx g) (UNO.host g) (UNO.rule_set g) (UNO.players g)
                (UNO.deck g) (UNO.hands g) (UNO.current g) (-1) (UNO._message g) in
  let over := UNO.mk (UNO.ctx g) (UNO.host g) (UNO.rule_set g) (UNO.players g)
                (UNO.deck g) (UNO.hands g) (UNO.current g) 2 (UNO._message g) in
  (exists h, UNO.hands back !! 1%nat = Some h /\
             UNO.current_player back = (Ret (Hand.player h), back, [])) /\
  UNO.current_hand over = (Raise IndexError, over, []).
Proof.
  intros g back over. split.
  - destruct (current_hand_bounds back) as [Hin _].
    destruct Hin as (h & Hh & _ & Hp); [cbn; lia|]. exists h. split; [exact Hh | exact Hp].
  - destruct (current_hand_bounds over) as [_ Hout].
    apply Hout. cbn. lia.
Defined.

(** X13: after a completed [start], [get_hand] finds for every player the
    hand that belongs to it, holding seven cards, and returns [None] for
    everybody else; and when [turn] is 0 and there is a player,
    [current_player] is one of the players. *)
Theorem lookups_after_dealing (g g' : UNO.t) (r r' : Rng) (out : list Output) :
  UNO.start (g, r) = (Ret tt, (g', r'), out) ->
  (forall p, p ∈ UNO.players g ->
     exists h,
       UNO.get_hand p g' = (Ret (Some h), g', []) /\
       Hand.player h = p /\ Hand.__len__ h = 7%nat /\ h ∈ UNO.hands g') /\
  (forall p, p ∉ UNO.players g -> UNO.get_hand p g' = (Ret None, g', [])) /\
  (UNO.turn g = 0 -> UNO.players g <> ∅ ->
   exists p, UNO.current_player g' = (Ret p, g', []) /\ p ∈ UNO.players g).
Proof.
  intros E.
  destruct (start_total g r) as (shown & _ & _ & Es). cbv zeta in Es.
  set (hs0 := Hand.__init__ <$> elements (UNO.players g)) in *.
  set (sh := shuffle hs0 r) in *.
  set (sd := shuffle (Deck._internal_deck (UNO.deck g)) sh.2) in *.
  assert (Hperm : sh.1 ≡ₚ hs0) by apply shuffle_Permutation.
  assert (Hfresh : Forall (fun h => Hand._cards h = []) sh.1).
  { rewrite Hperm. subst hs0. apply Forall_fmap, Forall_true. done. }
  rewrite Es in E. clear Es. destruct sd.1 as [|c rest]; [discriminate|].
  destruct (decide _) as [Hlen|]; [|discriminate].
  injection E as <- <- <-.
  set (g' := UNO.mk _ _ _ _ _ _ _ _ _).
  assert (H7 : Forall (fun h => Hand.__len__ h = 7%nat) (UNO.hands g'))
    by (by apply dealt_seven).
  assert (Hpl : Hand.player <$> UNO.hands g' ≡ₚ elements (UNO.players g)).
  { subst g'. cbn [UNO.hands]. rewrite dealt_player, Hperm. subst hs0.
    rewrite <- list_fmap_compose. by rewrite list_fmap_id. }
  assert (Hmem : forall p, p ∈ Hand.player <$> UNO.hands g' <-> p ∈ UNO.players g).
  { intros p. rewrite Hpl. apply elem_of_elements. }
  split; [|split].
  - intros p Hp. apply Hmem in Hp.
    destruct (find_player_Some _ _ Hp) as (h & Ef & Hhp & Hin).
    exists h. unfold UNO.get_hand, bind, get, ret. rewrite Ef.
    repeat split; [done..| |done].
    by apply (proj1 (Forall_forall _ _) H7).
  - intros p Hp. unfold UNO.get_hand, bind, get, ret.
    rewrite find_player_None; [done|]. by rewrite Hmem.
  - intros H0 Hne.
    destruct (UNO.hands g') as [|h tl] eqn:Eh.
    + exfalso. apply Hne. apply set_eq. intros x. rewrite <- Hmem. cbn.
      split; [by intros ?%elem_of_nil | by intros ?%not_elem_of_empty].
    + exists (Hand.player h). split.
      * unfold UNO.current_player, UNO.current_hand, bind, get, py_index.
        rewrite Eh. change (UNO.turn g') with (UNO.turn g). rewrite H0. reflexivity.
      * apply Hmem. cbn. apply list_elem_of_here.
Qed.

Lemma lookups_after_dealing_witness :
  let cs := [mkCard 0 0 (Some 0); mkCard 0 0 (Some 1); mkCard 0 0 (Some 2);
             mkCard 1 0 (Some 3); mkCard 1 0 (Some 4); mkCard 1 1 None;
             mkCard 2 0 (Some 6); mkCard 2 1 None; mkCard 4 2 None] in
  let g := UNO.__init__ cs (mkContext 1 10) None None [3] in
  let g' := (UNO.start (g, [])).1.2.1 in
  (exists h, UNO.get_hand 3 g' = (Ret (Some h), g', []) /\ Hand.__len__ h = 7%nat) /\
  UNO.get_hand 1 g' = (Ret None, g', []).
Proof.
  intros cs g g'.
  destruct (lookups_after_dealing g g' [] (UNO.start (g, [])).1.2.2
              (UNO.start (g, [])).2) as (Hin & Hout & _).
  - vm_compute. reflexivity.
  - split.
    + destruct (Hin 3) as (h & E & _ & H7 & _).
      * apply elem_of_list_to_set, list_elem_of_here.
      * exists h. split; [exact E | exact H7].
    + apply Hout. intros H%elem_of_list_to_set%list_elem_of_singleton. discriminate.
Defined.

(** ** The session's message *)

Section message.

Import UNO.

Lemma _send_Some (c m : Content) (g : UNO.t) :
  _message g = Some m ->
  _send c g = (Ret tt, set_message (Some c) g, [MessageEdit c]).
Proof. intros H. unfold _send, bind, get. by rewrite H. Qed.

Lemma _send_None (c : Content) (g : UNO.t) :
  _message g = None ->
  _send c g = (Ret tt, set_message (Some c) g, [CtxSend c]).
Proof. intros H. unfold _send, bind, get. by rewrite H. Qed.

Lemma last_cons_default {A} (cs : list A) : forall c m : A,
  List.last (c :: cs) m = List.last cs c.
Proof.
  induction cs as [|c' cs IH]; intros c m; [done|].
  change (List.last (c :: c' :: cs) m) with (List.last (c' :: cs) m).
  by rewrite (IH c' m), (IH c' c).
Qed.

Lemma _sends_Some (cs : list Content) : forall (m : Content) (g : UNO.t),
  _message g = Some m ->
  for_each cs _send g
  = (Ret tt, set_message (Some (List.last cs m)) g, MessageEdit <$> cs).
Proof.
  induction cs as [|c cs IH]; intros m g Hm.
  - cbn. rewrite <- Hm. by destruct g.
  - cbn [for_each]. unfold bind. rewrite (_send_Some c m g Hm).
    rewrite (IH c) by reflexivity. rewrite last_cons_default. by destruct g.
Qed.

End message.

(** X14: the session keeps one message: of any series of [_send]s on a
    session that has none yet, the first is sent to the channel and all
    later ones edit it; on a session that has its message every one is an
    edit. Afterwards the message shows the last content, and nothing else of
    the session has changed. *)
Theorem _send_edits_in_place (cs : list Content) (g : UNO.t) :
  exists g',
    for_each cs UNO._send g
    = (Ret tt, g',
       match UNO._message g, cs with
       | None, c :: rest => CtxSend c :: (MessageEdit <$> rest)
       | _, _ => MessageEdit <$> cs
       end) /\
    UNO._message g'
    = match cs with
      | [] => UNO._message g
      | c :: rest => Some (List.last rest c)
      end /\
    UNO.set_message (UNO._message g) g' = g.
Proof.
  destruct (UNO._message g) as [m|] eqn:Hm.
  - eexists. rewrite (_sends_Some cs m g Hm). split; [reflexivity|].
    cbn [UNO._message UNO.set_message]. split.
    + destruct cs as [|c cs]; [done|]. by rewrite last_cons_default.
    + destruct g. cbn in *. by subst.
  - destruct cs as [|c cs].
    + exists g. cbn. split; [done|]. split; [done|]. destruct g. cbn in *. by subst.
    + eexists. cbn [for_each]. unfold bind. rewrite (_send_None c g Hm).
      rewrite (_sends_Some cs c) by reflexivity. split; [reflexivity|].
      cbn [UNO._message UNO.set_message]. split; [done|].
      destruct g. cbn in *. by subst.
Qed.

(** ** Rule-set negotiation, continued *)

Section negotiation.

Lemma callback_selection (i : Interaction) (g : UNO.t) (rs : RuleSet) :
  UNO.rule_set g = Some rs ->
  RuleSetPrompt.callback i g
  = (Ret tt, UNO.set_rule_set (Some (selection (values i))) g, [Defer (user i)]).
Proof.
  intros Hrs. destruct g as [c hst r ps d hs cur tn msg]. cbn in Hrs. subst r.
  reflexivity.
Qed.

Lemma select_run (i : Interaction) (g : UNO.t) (rs : RuleSet) :
  UNO.rule_set g = Some rs ->
  exists o,
    RuleSetPromptingView.select i g
    = (Ret tt,
       UNO.set_rule_set
         (Some (if bool_decide (user i = UNO.host g) then selection (values i) else rs))
         g, [o]).
Proof.
  intros Hrs. unfold RuleSetPromptingView.select, scheduled_task, bind at 1, get.
  unfold HostOnlyView.interaction_check.
  destruct (decide (user i = UNO.host g)) as [Hh|Hh].
  - rewrite bool_decide_eq_false_2 by (intros H; by apply H).
    rewrite (bool_decide_eq_true_2 _ Hh).
    unfold bind, ret. rewrite (callback_selection i g rs Hrs). eauto.
  - rewrite (bool_decide_eq_true_2 _ Hh). rewrite (bool_decide_eq_false_2 _ Hh).
    eexists. cbn. rewrite <- Hrs. by destruct g.
Qed.

End negotiation.

(** X15: the select shows the four rules in the order of [CHOICES], at
    most four of them selectable, each marked as default exactly when its
    flag is set; and submitting the select as it was shown (the values of
    the options marked as default) leaves the rule set as it is. *)
Theorem preselected_round_trip (g : UNO.t) (rs : RuleSet) (actor : Member) :
  UNO.rule_set g = Some rs ->
  RuleSetPrompt.option_value <$> RuleSetPrompt.options (RuleSetPrompt.__init__ g)
  = RuleSetPrompt.CHOICES /\
  RuleSetPrompt.max_values (RuleSetPrompt.__init__ g) = length RuleSetPrompt.CHOICES /\
  RuleSetPrompt.default_selected <$> RuleSetPrompt.options (RuleSetPrompt.__init__ g)
  = [stacking rs; progressive rs; seven_o rs; jump_in rs] /\
  RuleSetPrompt.callback
    (mkInteraction actor (RuleSetPrompt.preselected (RuleSetPrompt.__init__ g))) g
  = (Ret tt, g, [Defer actor]).
Proof.
  intros Hrs. destruct g as [c hst r ps d hs cur tn msg]. cbn in Hrs. subst r.
  split; [reflexivity|]. split; [reflexivity|]. split; [reflexivity|].
  destruct rs as [[] [] [] []]; reflexivity.
Qed.

Lemma preselected_round_trip_witness :
  let g := UNO.set_rule_set (Some (mkRuleSet false true true false))
             (UNO.__init__ [] (mkContext 1 10) None None []) in
  RuleSetPrompt.preselected (RuleSetPrompt.__init__ g)
  = ["progressive"; "seven_o"]%string /\
  RuleSetPrompt.callback (mkInteraction 1 ["progressive"; "seven_o"]%string) g
  = (Ret tt, g, [Defer 1]).
Proof.
  intros g. split; [reflexivity|].
  apply (preselected_round_trip g (mkRuleSet false true true false) 1 eq_refl).
Defined.

(** X16: after any series of rule-change events on a session with a rule
    set, the rule set of the session is the selection of the last event that
    came from the host (the one it was before when the host sent none):
    submissions of other members never count. Every event is answered
    exactly once, and nothing but the rule set changes. *)
Theorem selects_last_host_selection (evs : list Interaction) (g : UNO.t)
    (rs : RuleSet) :
  UNO.rule_set g = Some rs ->
  exists g' out,
    RuleSetPromptingView.selects evs g = (Ret tt, g', out) /\
    UNO.rule_set g' = Some (last_host_selection (UNO.host g) rs evs) /\
    length out = length evs /\
    UNO.ctx g' = UNO.ctx g /\ UNO.host g' = UNO.host g /\
    UNO.players g' = UNO.players g /\ UNO.deck g' = UNO.deck g /\
    UNO.hands g' = UNO.hands g /\ UNO.current g' = UNO.current g /\
    UNO.turn g' = UNO.turn g /\ UNO._message g' = UNO._message g.
Proof.
  revert g rs. induction evs as [|i evs IH]; intros g rs Hrs.
  - exists g, []. cbn. by repeat split.
  - unfold RuleSetPromptingView.selects. cbn [for_each last_host_selection].
    unfold bind. destruct (select_run i g rs Hrs) as [o ->].
    set (rs' := if bool_decide (user i = UNO.host g) then selection (values i) else rs).
    destruct (IH (UNO.set_rule_set (Some rs') g) rs' eq_refl)
      as (g' & out & E & Hr & Hlen & Hf).
    unfold RuleSetPromptingView.selects in E. rewrite E.
    exists g', ([o] ++ out). split; [reflexivity|]. split; [exact Hr|].
    split; [cbn; by rewrite Hlen|]. destruct g. exact Hf.
Qed.

(** Host 1 selects jump-in, member 2 tries to clear the selection. *)
Lemma selects_last_host_selection_witness :
  let g := UNO.set_rule_set (Some RuleSet_default)
             (UNO.__init__ [] (mkContext 1 10) None None []) in
  exists g' out,
    RuleSetPromptingView.selects
      [mkInteraction 1 ["jump_in"%string]; mkInteraction 2 []] g
    = (Ret tt, g', out) /\
    UNO.rule_set g' = Some (mkRuleSet false false false true) /\
    length out = 2%nat.
Proof.
  intros g.
  destruct (selects_last_host_selection
              [mkInteraction 1 ["jump_in"%string]; mkInteraction 2 []] g
              RuleSet_default eq_refl) as (g' & out & E & Hr & Hlen & _).
  exists g', out. split; [exact E|]. split; [exact Hr | exact Hlen].
Defined.

(** ** The queueing view, continued *)

Section queueing_more.

Import PlayerQueueingView.

Implicit Types (v : PlayerQueueingView.t) (i : Interaction).

Lemma same_but_roster_refl v : same_but_roster v v.
Proof. by repeat split. Qed.

Lemma same_but_roster_trans v1 v2 v3 :
  same_but_roster v1 v2 -> same_but_roster v2 v3 -> same_but_roster v1 v3.
Proof.
  unfold same_but_roster.
  intros [? [? [? [? [? [? ?]]]]]] [? [? [? [? [? [? ?]]]]]].
  repeat split; congruence.
Qed.

(** Every way a press can go. *)
Lemma press_effect (b : button) i v :
  exists v' out,
    press b i v = (Ret tt, v', out) /\
    same_but_roster v v' /\
    (players v' = players v \/
     (b = Join /\ (user i ∉ players v) /\ players v' = {[ user i ]} ∪ players v) \/
     (b = Leave /\ user i ∈ players v /\ user i <> UNO.host (game v) /\
      players v' = players v ∖ {[ user i ]})) /\
    (stopped v' = stopped v \/
     (b = Start /\ user i = UNO.host (game v) /\ (2 <= size (players v))%nat /\
      stopped v' = true)).
Proof.
  destruct b; cbn [press].
  - unfold immediate_start, bind, get.
    case_bool_decide as Hh; [|case_bool_decide as Hn]; cbn.
    + do 2 eexists. split; [reflexivity|]. split; [apply same_but_roster_refl|]. auto.
    + do 2 eexists. split; [reflexivity|]. split; [apply same_but_roster_refl|]. auto.
    + do 2 eexists. split; [reflexivity|]. split; [by repeat split|].
      split; [by left|]. right. repeat split; [|lia].
      destruct (decide (user i = UNO.host (game v))); [done|]. by destruct Hh.
  - destruct (decide (user i ∈ players v)) as [Hin|Hin].
    + destruct (rejected_press i v Join (duplicate_join _ _ Hin)) as [n Hn].
      cbn [press] in Hn. rewrite Hn.
      do 2 eexists. split; [reflexivity|]. split; [apply same_but_roster_refl|]. auto.
    + rewrite join_accepted by done.
      destruct (_update_run (set_players ({[user i]} ∪ players v) v)) as [o ->].
      do 2 eexists. split; [reflexivity|]. split; [by repeat split|].
      split; [|by left]. right. left. by repeat split.
  - destruct (decide (user i ∈ players v)) as [Hin|Hin];
      [destruct (decide (user i = UNO.host (game v))) as [Hh|Hh]|].
    + destruct (rejected_press i v Leave (leave_by_host _ _ Hh)) as [n Hn].
      cbn [press] in Hn. rewrite Hn.
      do 2 eexists. split; [reflexivity|]. split; [apply same_but_roster_refl|]. auto.
    + rewrite leave_accepted by done.
      destruct (_update_run (set_players (players v ∖ {[user i]}) v)) as [o ->].
      do 2 eexists. split; [reflexivity|]. split; [by repeat split|].
      split; [|by left]. right. right. by repeat split.
    + destruct (rejected_press i v Leave (leave_by_non_member _ _ Hin)) as [n Hn].
      cbn [press] in Hn. rewrite Hn.
      do 2 eexists. split; [reflexivity|]. split; [apply same_but_roster_refl|]. auto.
Qed.

End queueing_more.

(** X17: a join by somebody who is not in the game adds exactly this
    member (the player count grows by one) and re-renders the roster, which
    then lists exactly the new players (in the order the set is iterated);
    the same member joining again is turned down and changes nothing, so a
    double join counts once. *)
Theorem join_adds_once (i : Interaction) (v : PlayerQueueingView.t) :
  user i ∉ PlayerQueueingView.players v ->
  exists v' o,
    PlayerQueueingView.join i v = (Ret tt, v', [o]) /\
    PlayerQueueingView.players v' = {[ user i ]} ∪ PlayerQueueingView.players v /\
    size (PlayerQueueingView.players v') = S (size (PlayerQueueingView.players v)) /\
    (exists shown,
       UNO._message (PlayerQueueingView.game v')
       = Some (Roster shown (PlayerQueueingView.immediate_start_button_disabled v')) /\
       shown ≡ₚ elements (PlayerQueueingView.players v')) /\
    PlayerQueueingView.join i v'
    = (Ret tt, v', [Respond (user i) "You are already in this game." true]).
Proof.
  intros Hin. rewrite join_accepted by done.
  destruct (_update_run
    (PlayerQueueingView.set_players ({[user i]} ∪ PlayerQueueingView.players v) v))
    as [o ->].
  do 2 eexists. split; [reflexivity|].
  unfold PlayerQueueingView.players. cbn. fold (PlayerQueueingView.players v).
  split; [done|]. split.
  { rewrite size_union by set_solver. by rewrite size_singleton. }
  split; [by eexists|].
  unfold PlayerQueueingView.join, bind, get, PlayerQueueingView.players. cbn.
  rewrite bool_decide_eq_true_2 by set_solver. reflexivity.
Qed.

Lemma join_adds_once_witness :
  let v := PlayerQueueingView.__init__ (UNO.__init__ [] (mkContext 1 10) None None []) in
  exists v' o,
    PlayerQueueingView.join (mkInteraction 2 []) v = (Ret tt, v', [o]) /\
    size (PlayerQueueingView.players v') = 2%nat /\
    PlayerQueueingView.join (mkInteraction 2 []) v'
    = (Ret tt, v', [Respond 2 "You are already in this game." true]).
Proof.
  intros v.
  destruct (join_adds_once (mkInteraction 2 []) v) as (v' & o & E & _ & Hs & _ & E2).
  - vm_compute. intros H. discriminate H.
  - exists v', o. split; [exact E|]. split; [|exact E2].
    rewrite Hs. reflexivity.
Defined.



(** X19: the "Start!" callback ends the queueing stage exactly when the
    host presses with at least two players in the game: then the view is
    stopped without any message; in every other case the presser gets a
    notice and the view is as before. The session itself is never changed
    by this button. *)
Theorem immediate_start_stops_iff (i : Interaction) (v : PlayerQueueingView.t) :
  exists v' out,
    PlayerQueueingView.immediate_start i v = (Ret tt, v', out) /\
    PlayerQueueingView.game v' = PlayerQueueingView.game v /\
    PlayerQueueingView.immediate_start_button_disabled v'
    = PlayerQueueingView.immediate_start_button_disabled v /\
    (user i = UNO.host (PlayerQueueingView.game v) /\
     (2 <= size (PlayerQueueingView.players v))%nat ->
     PlayerQueueingView.stopped v' = true /\ out = []) /\
    (~ (user i = UNO.host (PlayerQueueingView.game v) /\
        (2 <= size (PlayerQueueingView.players v))%nat) ->
     v' = v /\ exists notice, out = [Respond (user i) notice true]).
Proof.
  unfold PlayerQueueingView.immediate_start, bind, get.
  case_bool_decide as Hh; [|case_bool_decide as Hn]; cbn.
  - do 2 eexists. split; [reflexivity|]. do 2 (split; [done|]). split.
    + by intros [? _].
    + intros _. split; [done|]. eauto.
  - do 2 eexists. split; [reflexivity|]. do 2 (split; [done|]). split.
    + intros [_ ?]. lia.
    + intros _. split; [done|]. eauto.
  - do 2 eexists. split; [reflexivity|]. do 2 (split; [done|]). split.
    + done.
    + intros H. exfalso. apply H. split; [|lia].
      destruct (decide (user i = UNO.host (PlayerQueueingView.game v))); [done|].
      by destruct Hh.
Qed.

(** The host alone is turned down; with a second player the press stops
    the view. *)
Lemma immediate_start_stops_iff_witness :
  let v := PlayerQueueingView.__init__ (UNO.__init__ [] (mkContext 1 10) None None [2]) in
  exists v',
    PlayerQueueingView.immediate_start (mkInteraction 1 []) v = (Ret tt, v', []) /\
    PlayerQueueingView.stopped v' = true.
Proof.
  intros v.
  destruct (immediate_start_stops_iff (mkInteraction 1 []) v)
    as (v' & out & E & _ & _ & Hyes & _).
  destruct Hyes as [Hs ->].
  - split; [reflexivity|]. vm_compute. lia.
  - exists v'. split; [exact E | exact Hs].
Defined.

(** X20: whatever is pressed on the queueing view, by whomever and in
    whatever order, no press raises, and of the session only the players and
    the message can change: the rule set, the deck, the hands, the current
    card, the turn and the host stay as they were. In particular the hands
    are never rebuilt for those who join. *)
Theorem presses_leave_session_alone
    (evs : list (PlayerQueueingView.button * Interaction))
    (v : PlayerQueueingView.t) :
  exists v' out,
    PlayerQueueingView.presses evs v = (Ret tt, v', out) /\
    same_but_roster v v'.
Proof.
  revert v. induction evs as [|[b i] evs IH]; intros v.
  - exists v, []. split; [reflexivity | apply same_but_roster_refl].
  - unfold PlayerQueueingView.presses. cbn [for_each]. unfold bind. cbn [fst snd].
    destruct (press_effect b i v) as (v1 & out1 & -> & Hf1 & _).
    destruct (IH v1) as (v2 & out2 & E & Hf2).
    unfold PlayerQueueingView.presses in E. rewrite E.
    do 2 eexists. split; [reflexivity|]. by eapply same_but_roster_trans.
Qed.

(** X21: nothing happens on the queueing view without the press for it:
    after any series of presses, whoever is in the game now and was not
    before has pressed Join, whoever was in the game and is not any more has
    pressed Leave and is not the host, and a view that was running and is
    now stopped got a Start press from the host. *)
Theorem presses_account_for_changes
    (evs : list (PlayerQueueingView.button * Interaction))
    (v v' : PlayerQueueingView.t) (o : outcome unit) (out : list Output) :
  PlayerQueueingView.presses evs v = (o, v', out) ->
  (forall p, p ∈ PlayerQueueingView.players v' -> p ∉ PlayerQueueingView.players v ->
     exists i, (PlayerQueueingView.Join, i) ∈ evs /\ user i = p) /\
  (forall p, p ∈ PlayerQueueingView.players v -> p ∉ PlayerQueueingView.players v' ->
     p <> UNO.host (PlayerQueueingView.game v) /\
     exists i, (PlayerQueueingView.Leave, i) ∈ evs /\ user i = p) /\
  (PlayerQueueingView.stopped v = false -> PlayerQueueingView.stopped v' = true ->
     exists i, (PlayerQueueingView.Start, i) ∈ evs /\
               user i = UNO.host (PlayerQueueingView.game v)).
Proof.
  revert v v' o out. induction evs as [|[b i] evs IH]; intros v v' o out E.
  - cbn in E. injection E as <- <- <-.
    repeat split; try done; congruence.
  - unfold PlayerQueueingView.presses in E. cbn [for_each] in E.
    unfold bind in E. cbn [fst snd] in E.
    destruct (press_effect b i v) as (v1 & out1 & E1 & Hf1 & Hp & Hs).
    rewrite E1 in E.
    destruct (for_each evs _ v1) as [[o2 v2] out2] eqn:E2.
    injection E as <- <- <-.
    destruct (IH v1 v2 o2 out2 E2) as (IHj & IHl & IHs).
    destruct Hf1 as (_ & Hhost & _).
    split; [|split].
    + intros p Hin' Hnin.
      destruct (decide (p ∈ PlayerQueueingView.players v1)) as [Hin1|Hnin1].
      * destruct Hp as [Hp|[(-> & _ & Hp)|(_ & _ & _ & Hp)]].
        -- rewrite Hp in Hin1. contradiction.
        -- rewrite Hp in Hin1. apply elem_of_union in Hin1 as [Hin1|Hin1];
             [|contradiction].
           apply elem_of_singleton in Hin1. exists i. split; [|done].
           apply list_elem_of_here.
        -- rewrite Hp in Hin1. apply elem_of_difference in Hin1 as [? _].
           contradiction.
      * destruct (IHj p Hin' Hnin1) as (j & Hj & Hu). exists j.
        split; [by apply list_elem_of_further | done].
    + intros p Hin Hnin'.
      destruct (decide (p ∈ PlayerQueueingView.players v1)) as [Hin1|Hnin1].
      * destruct (IHl p Hin1 Hnin') as (Hne & j & Hj & Hu).
        split; [congruence|]. exists j. split; [by apply list_elem_of_further | done].
      * destruct Hp as [Hp|[(_ & _ & Hp)|(-> & _ & Hne & Hp)]].
        -- rewrite Hp in Hnin1. contradiction.
        -- rewrite Hp in Hnin1. exfalso. apply Hnin1. by apply elem_of_union_r.
        -- assert (p = user i) as ->.
           { destruct (decide (p = user i)) as [|Hd]; [done|].
             exfalso. apply Hnin1. rewrite Hp. apply elem_of_difference.
             split; [done|]. by intros ?%elem_of_singleton. }
           split; [done|]. exists i. split; [apply list_elem_of_here | done].
    + intros Hs0 Hs'.
      destruct (PlayerQueueingView.stopped v1) eqn:Hs1.
      * destruct Hs as [Hs|(-> & Hu & _)]; [congruence|].
        exists i. split; [apply list_elem_of_here | done].
      * destruct (IHs eq_refl Hs') as (j & Hj & Hu). exists j.
        split; [by apply list_elem_of_further | congruence].
Qed.

(** Member 2 joins; nobody else can have appeared. *)
Lemma presses_account_for_changes_witness :
  let v := PlayerQueueingView.__init__ (UNO.__init__ [] (mkContext 1 10) None None []) in
  let evs := [(PlayerQueueingView.Leave, mkInteraction 1 []);
              (PlayerQueueingView.Join, mkInteraction 2 [])] in
  exists i, (PlayerQueueingView.Join, i) ∈ evs /\ user i = 2.
Proof.
  intros v evs.
  destruct (PlayerQueueingView.presses evs v) as [[o v'] out] eqn:E.
  destruct (presses_account_for_changes evs v v' o out E) as (Hj & _ & _).
  apply Hj.
  - assert (Hv : v' = (PlayerQueueingView.presses evs v).1.2) by (by rewrite E).
    rewrite Hv. vm_compute. reflexivity.
  - vm_compute. intros H. discriminate H.
Defined.

(** X22: entering the queueing stage never fails. The host is in the
    players of the new view, the view is running, and two renders have gone
    out: the opening message (sent if the session had no message yet, else
    an edit of it) and then, always as an edit, the roster, which lists
    exactly the players (in the order the set is iterated), with the start
    button disabled exactly for more than one player. When the stage ends
    the players of the view are the session's players already. *)
Theorem queue_players_entry (g : UNO.t) :
  let ps := {[ UNO.host g ]} ∪ UNO.players g in
  exists v0 shown,
    UNO_queue_players g
    = (Ret tt, v0,
       [match UNO._message g with
        | None => CtxSend Opening
        | Some _ => MessageEdit Opening
        end;
        MessageEdit (Roster shown (bool_decide (1 < size ps)%nat))]) /\
    shown ≡ₚ elements ps /\
    PlayerQueueingView.players v0 = ps /\
    PlayerQueueingView.immediate_start_button_disabled v0
    = bool_decide (1 < size ps)%nat /\
    PlayerQueueingView.stopped v0 = false /\
    same_but_roster (PlayerQueueingView.mk g true false) v0 /\
    (forall v, UNO_queue_players_resume v = PlayerQueueingView.game v).
Proof.
  intros ps. destruct g as [c hst rs pl d hs cur tn msg]. subst ps.
  cbn [UNO.host UNO.players UNO._message].
  do 2 eexists. split.
  - unfold UNO_queue_players, bind, PlayerQueueingView.on_game,
      PlayerQueueingView._update, zoom, UNO._send, bind, get, modify, tell.
    destruct msg; reflexivity.
  - split; [reflexivity|].
    split; [by destruct msg|]. split; [by destruct msg|]. split; [by destruct msg|].
    split; [by destruct msg|].
    intros [[] ? ?]. reflexivity.
Qed.

(** ** The registry, continued *)

Section registry_more.

Import Extension.

Implicit Types (bot : Bot) (ctx : Context) (create_deck : list Card).

(** The session a [play] leaves in a free channel: nobody to deal to. *)
Lemma play_uno_free create_deck ctx bot :
  channel_id ctx ∉ dom (uno_instances bot) ->
  let sd := shuffle create_deck (random bot) in
  play_uno create_deck ctx bot
  = (Raise (match sd.1 with [] => IndexError | _ :: _ => AttributeError end),
     mkBot
       (<[channel_id ctx :=
            UNO.mk ctx (author ctx) (Some RuleSet_default) ∅ (Deck.mk (tail sd.1)) []
              (head sd.1) 0 (Some (ChooseRuleSet (author ctx)))]>
          (uno_instances bot))
       sd.2,
     [CtxSend (ChooseRuleSet (author ctx))]).
Proof.
  intros Hfree sd. unfold play_uno, bind at 1, get.
  rewrite bool_decide_eq_false_2 by done.
  set (game := UNO.__init__ create_deck ctx None None []).
  unfold bind at 1, modify. unfold bind at 1.
  unfold on_game at 1, zoom. cbn [uno_instances random].
  rewrite lookup_insert_eq. cbn [default]. change (id game) with game.
  destruct (start_total game (random bot)) as (o & Ho & _ & Es).
  rewrite (Ho eq_refl) in Es. clear Ho. cbv zeta in Es.
  change (UNO.players game) with (∅ : gset Member) in Es.
  rewrite elements_empty in Es. cbn [fmap list_fmap] in Es.
  change (shuffle (@nil Hand.t) (random bot)) with (@nil Hand.t, random bot) in Es.
  cbn [fst snd length] in Es.
  change (Deck._internal_deck (UNO.deck game)) with create_deck in Es. fold sd in Es.
  rewrite Es. clear Es. destruct sd.1 as [|c rest].
  - cbn [fst snd tail head]. rewrite alter_insert_eq. reflexivity.
  - rewrite decide_True by (cbn; lia). cbn [dealt drop Nat.mul].
    unfold bind at 1, on_game, zoom. cbn [uno_instances random fst snd].
    rewrite alter_insert_eq, lookup_insert_eq. cbn [default].
    unfold UNO.on_self, zoom. cbn [fst snd].
    match goal with |- context [UNO.lookup_attribute _ (id ?x)] =>
      change (id x) with x; rewrite (lookup_attribute_wait x) end.
    cbn [fst snd tail head app]. rewrite alter_insert_eq. reflexivity.
Qed.

End registry_more.

(** X23: a [play] in a free channel deals to nobody. The session it
    registers has the author as host, no players and no hands, the default
    rule set, and the front card of the shuffled deck as current card, the
    rest of the deck untouched; the only message is the rule prompt. The
    command itself ends in [AttributeError] (no [wait] on the session), or
    in [IndexError] when [create_deck] gave no card. *)
Theorem play_uno_deals_to_nobody (create_deck : list Card) (ctx : Context)
    (bot : Extension.Bot) :
  channel_id ctx ∉ dom (Extension.uno_instances bot) ->
  let sd := shuffle create_deck (Extension.random bot) in
  exists bot',
    Extension.play_uno create_deck ctx bot
    = (Raise (match sd.1 with [] => IndexError | _ :: _ => AttributeError end),
       bot', [CtxSend (ChooseRuleSet (author ctx))]) /\
    Extension.random bot' = sd.2 /\
    Extension.uno_instances bot' !! channel_id ctx
    = Some (UNO.mk ctx (author ctx) (Some RuleSet_default) ∅ (Deck.mk (tail sd.1)) []
              (head sd.1) 0 (Some (ChooseRuleSet (author ctx)))) /\
    (head sd.1 = None <-> create_deck = []) /\
    option_list (head sd.1) ++ tail sd.1 ≡ₚ create_deck.
Proof.
  intros Hfree sd. eexists. split; [by apply play_uno_free|].
  cbn [Extension.random Extension.uno_instances]. fold sd.
  split; [done|]. split; [apply lookup_insert_eq|].
  pose proof (shuffle_Permutation create_deck (Extension.random bot)) as Hp. fold sd in Hp.
  destruct sd.1 as [|c rest]; cbn.
  - apply Permutation_nil_l in Hp. by subst.
  - split; [|done]. split; [done|]. intros ->. by apply Permutation_nil_r in Hp.
Qed.

Lemma play_uno_deals_to_nobody_witness :
  let cs := [mkCard 0 0 (Some 0); mkCard 0 0 (Some 1)] in
  exists bot',
    Extension.play_uno cs (mkContext 1 10) (Extension.mkBot ∅ [])
    = (Raise AttributeError, bot', [CtxSend (ChooseRuleSet 1)]) /\
    (UNO.hands <$> Extension.uno_instances bot' !! 10) = Some [].
Proof.
  intros cs.
  destruct (play_uno_deals_to_nobody cs (mkContext 1 10) (Extension.mkBot ∅ []))
    as (bot' & E & _ & Hl & _).
  - cbn. rewrite dom_empty_L. apply not_elem_of_empty.
  - exists bot'. split; [exact E|]. cbn [channel_id] in Hl. by rewrite Hl.
Defined.

(** X24: a [play] never touches the sessions of other channels, whether it
    is turned down or registers a session. *)
Theorem play_uno_other_channels (create_deck : list Card) (ctx : Context)
    (bot : Extension.Bot) (other : Z) :
  other <> channel_id ctx ->
  Extension.uno_instances (Extension.play_uno create_deck ctx bot).1.2 !! other
  = Extension.uno_instances bot !! other.
Proof.
  intros Hne.
  destruct (decide (channel_id ctx ∈ dom (Extension.uno_instances bot))) as [Hin|Hfree].
  - unfold Extension.play_uno, bind, get. rewrite bool_decide_eq_true_2 by done.
    reflexivity.
  - rewrite (play_uno_free create_deck ctx bot Hfree). cbn.
    by apply lookup_insert_ne.
Qed.

Lemma play_uno_other_channels_witness :
  let running := UNO.__init__ [] (mkContext 3 20) None None [] in
  let bot := Extension.mkBot {[ 20 := running ]} [] in
  Extension.uno_instances
    (Extension.play_uno [mkCard 4 2 None] (mkContext 1 10) bot).1.2 !! 20
  = Some running.
Proof.
  intros running bot.
  rewrite (play_uno_other_channels [mkCard 4 2 None] (mkContext 1 10) bot 20).
  - apply lookup_singleton_eq.
  - cbn. lia.
Defined.

(** X25: once a [play] has been handled in a channel, the channel is
    taken: every later [play] there, by anybody and with any deck, is turned
    down with the notice and changes nothing, because the first one never
    reaches its removal from the registry. *)
Theorem play_uno_blocks_channel (create_deck create_deck' : list Card)
    (ctx ctx' : Context) (bot : Extension.Bot) :
  channel_id ctx' = channel_id ctx ->
  let bot' := (Extension.play_uno create_deck ctx bot).1.2 in
  Extension.play_uno create_deck' ctx' bot'
  = (Ret tt, bot',
     [CtxSend (Plain "An instance of UNO is already running in this channel.")]).
Proof.
  intros Hc bot'.
  assert (Hin : channel_id ctx' ∈ dom (Extension.uno_instances bot')).
  { rewrite Hc. subst bot'.
    destruct (decide (channel_id ctx ∈ dom (Extension.uno_instances bot))) as [Hin|Hfree].
    - unfold Extension.play_uno, bind, get. by rewrite bool_decide_eq_true_2 by done.
    - rewrite (play_uno_free create_deck ctx bot Hfree). cbn.
      rewrite dom_insert_L. apply elem_of_union_l, elem_of_singleton_2. reflexivity. }
  unfold Extension.play_uno at 1, bind, get.
  rewrite bool_decide_eq_true_2 by done. reflexivity.
Qed.

Lemma play_uno_blocks_channel_witness :
  let bot' := (Extension.play_uno [mkCard 4 2 None] (mkContext 1 10)
                 (Extension.mkBot ∅ [])).1.2 in
  Extension.play_uno [mkCard 4 2 None] (mkContext 2 10) bot'
  = (Ret tt, bot',
     [CtxSend (Plain "An instance of UNO is already running in this channel.")]).
Proof.
  apply (play_uno_blocks_channel [mkCard 4 2 None] [mkCard 4 2 None]
           (mkContext 1 10) (mkContext 2 10) (Extension.mkBot ∅ []) eq_refl).
Defined.

(** X26: [cog_unload] drops every session: afterwards no channel is
    registered, the generator is untouched, and a [play] in any channel is
    handled as in a free channel, leaving exactly that channel registered. *)
Theorem cog_unload_frees_channels (create_deck : list Card) (ctx : Context)
    (bot : Extension.Bot) :
  exists bot0,
    Extension.cog_unload bot = (Ret tt, bot0, []) /\
    Extension.uno_instances bot0 = ∅ /\
    Extension.random bot0 = Extension.random bot /\
    exists e bot' out,
      Extension.play_uno create_deck ctx bot0 = (Raise e, bot', out) /\
      dom (Extension.uno_instances bot') = {[ channel_id ctx ]}.
Proof.
  exists (Extension.mkBot ∅ (Extension.random bot)).
  split; [reflexivity|]. split; [reflexivity|]. split; [reflexivity|].
  rewrite play_uno_free by (cbn; rewrite dom_empty_L; apply not_elem_of_empty).
  do 3 eexists. split; [reflexivity|]. cbn [Extension.uno_instances].
  rewrite dom_insert_L, dom_empty_L. apply (right_id_L ∅ (∪)).
Qed.

(** X27: the guarded removal at the end of [play] ([del] inside
    [try/except KeyError]) never raises: it removes the channel's session
    when there is one and does nothing otherwise, so running it again
    changes nothing; the other channels and the generator are untouched.
    Without the guard, [del] on a free channel raises [KeyError]. Removing a
    session just registered in a free channel restores the registry. *)
Theorem unregister_guarded (channel : Z) (bot : Extension.Bot) :
  exists bot',
    try_except_pass KeyError (Extension.del_instance channel) bot = (Ret tt, bot', []) /\
    Extension.uno_instances bot' = delete channel (Extension.uno_instances bot) /\
    Extension.random bot' = Extension.random bot /\
    try_except_pass KeyError (Extension.del_instance channel) bot' = (Ret tt, bot', []) /\
    Extension.del_instance channel bot' = (Raise KeyError, bot', []) /\
    (forall g, Extension.uno_instances bot !! channel = None ->
       try_except_pass KeyError (Extension.del_instance channel)
         (Extension.mkBot (<[channel := g]> (Extension.uno_instances bot))
            (Extension.random bot))
       = (Ret tt, bot, [])).
Proof.
  assert (Habsent : forall b, Extension.uno_instances b !! channel = None ->
    Extension.del_instance channel b = (Raise KeyError, b, []) /\
    try_except_pass KeyError (Extension.del_instance channel) b = (Ret tt, b, [])).
  { intros b Hb. unfold try_except_pass, Extension.del_instance, bind, get, raise.
    rewrite Hb. by cbn. }
  assert (Hpresent : forall b g, Extension.uno_instances b !! channel = Some g ->
    try_except_pass KeyError (Extension.del_instance channel) b
    = (Ret tt, Extension.mkBot (delete channel (Extension.uno_instances b))
                 (Extension.random b), [])).
  { intros b g Hb. unfold try_except_pass, Extension.del_instance, bind, get, modify.
    rewrite Hb. by cbn. }
  exists (Extension.mkBot (delete channel (Extension.uno_instances bot))
            (Extension.random bot)).
  destruct (Habsent (Extension.mkBot (delete channel (Extension.uno_instances bot))
                       (Extension.random bot))) as [Hdel Htry];
    [apply lookup_delete_eq|].
  split.
  { destruct (Extension.uno_instances bot !! channel) as [g|] eqn:E.
    - by apply (Hpresent bot g).
    - rewrite (proj2 (Habsent bot E)), delete_id by done. by destruct bot. }
  split; [done|]. split; [done|]. split; [exact Htry|]. split; [exact Hdel|].
  intros g Hfree. rewrite (Hpresent _ g) by apply lookup_insert_eq.
  cbn. rewrite delete_insert_eq, delete_id by done. by destruct bot.
Qed.

(** Channel 10 holds a session, channel 20 does not. *)
Lemma unregister_guarded_witness :
  let g := UNO.__init__ [] (mkContext 1 10) None None [] in
  let bot := Extension.mkBot ∅ [] in
  try_except_pass KeyError (Extension.del_instance 10)
    (Extension.mkBot (<[10 := g]> (Extension.uno_instances bot)) (Extension.random bot))
  = (Ret tt, bot, []).
Proof.
  intros g bot.
  destruct (unregister_guarded 10 bot) as (bot' & _ & _ & _ & _ & _ & Hrt).
  apply Hrt. apply lookup_empty.
Defined.
